(** * Target-eye: the TargetConfig record, its validators and its mutations

    A shallow embedding of [fa_target_eye/target_config.py],
    [fa_target_eye/target_config_schema.py] and of the PUT handler of
    [fa_target_eye/rest_api.py], followed by the properties of the
    specification that concern them.

    Conventions of the embedding.
    - A Python [str] is a [string]; a character is a code point below 256.
    - A [List[str]] is a [list string].  The [labels] attribute, a
      [Dict[str, str]] that the code only looks up, updates and compares, is
      a [gmap string string]; a dict that the code iterates over (a request
      body) is the list of its items in insertion order.
    - A method that mutates [self] is a function from the state before the
      call to an outcome (a returned value or a raised exception) and the
      state after it. *)

From Stdlib Require Import Ascii NArith ZArith.
From stdpp Require Import base option list sorting strings gmap sets.

Set Warnings "-register-all".

(** ** Python built-ins used by the code *)

Module Py.

(** The exception classes the code raises or lets escape. *)
Inductive exn : Type :=
  | ValueError
  | TypeError
  | KeyError
  | IndexError
  | FileNotFoundError
  | ValidationError   (* jsonschema.ValidationError *).

Global Instance exn_eq_dec : EqDecision exn.
Proof. solve_decision. Defined.

(** The outcome of a call: a value, or an exception. *)
Inductive result (A : Type) : Type :=
  | Ok (a : A)
  | Raise (e : exn).
Global Arguments Ok {A} a.
Global Arguments Raise {A} e.

Global Instance result_ret : MRet result := fun A a => Ok a.
Global Instance result_bind : MBind result := fun A B f m =>
  match m with
  | Ok a => f a
  | Raise e => Raise e
  end.

(** A computation over a mutable state [S]: the state is threaded through,
    and the state reached when an exception is raised is kept. *)
Definition M (S A : Type) : Type := S → result A * S.

Definition ret {S A} (a : A) : M S A := fun s => (Ok a, s).
Definition raise {S A} (e : exn) : M S A := fun s => (Raise e, s).
Definition bind {S A B} (m : M S A) (f : A → M S B) : M S B := fun s =>
  match m s with
  | (Ok a, s') => f a s'
  | (Raise e, s') => (Raise e, s')
  end.
Definition get_state {S} : M S S := fun s => (Ok s, s).
Definition put_state {S} (s : S) : M S unit := fun _ => (Ok tt, s).
(** A pure, possibly failing computation run inside a stateful one. *)
Definition lift {S A} (r : result A) : M S A := fun s => (r, s).

Global Instance M_ret {S} : MRet (M S) := fun A => ret.
Global Instance M_bind {S} : MBind (M S) := fun A B f m => bind m f.

(** A computation on the first component of a pair of states. *)
Definition on_fst {S T A} (m : M S A) : M (S * T) A := fun st =>
  let '(r, s') := m st.1 in (r, (s', st.2)).

(** [for x in l: body]: the body yields [None] to go on with the next item
    and [Some v] when it executes [return v]. *)
Fixpoint for_in {S A B} (l : list A) (body : A → M S (option B)) : M S (option B) :=
  match l with
  | [] => ret None
  | x :: l' =>
      bind (body x) (fun r =>
        match r with
        | Some v => ret (Some v)
        | None => for_in l' body
        end)
  end.

(** *** Characters *)

Definition ord (c : ascii) : N := N_of_ascii c.

Definition in_range (lo hi : N) (c : ascii) : bool :=
  ((lo <=? ord c) && (ord c <=? hi))%N.

(** [c.isspace()]: the white space of Unicode among the code points below
    256: TAB, LF, VT, FF, CR, the separators FS, GS, RS and US, the space,
    NEL (0x85) and the no-break space (0xA0). *)
Definition isspace (c : ascii) : bool :=
  in_range 9 13 c || in_range 28 32 c
  || bool_decide (ord c = 133%N) || bool_decide (ord c = 160%N).

(** The ten decimal digits [0-9]. *)
Definition is_ascii_digit (c : ascii) : bool := in_range 48 57 c.

(** [c.isdigit()]: the decimal digits and, below 256, the superscript
    digits two, three (0xB2, 0xB3) and one (0xB9). *)
Definition isdigit (c : ascii) : bool :=
  is_ascii_digit c || in_range 178 179 c || bool_decide (ord c = 185%N).

Definition is_ascii_lower (c : ascii) : bool := in_range 97 122 c.
Definition is_ascii_upper (c : ascii) : bool := in_range 65 90 c.
Definition is_ascii_alpha (c : ascii) : bool :=
  is_ascii_lower c || is_ascii_upper c.

Definition LF : ascii := ascii_of_N 10.

(** *** Strings *)

Definition chars (s : string) : list ascii := String.list_ascii_of_string s.
Definition str (l : list ascii) : string := String.string_of_list_ascii l.

Definition len (s : string) : nat := String.length s.

(** [s.strip()]: white space removed at both ends. *)
Fixpoint lstrip (l : list ascii) : list ascii :=
  match l with
  | c :: l' => if isspace c then lstrip l' else l
  | [] => []
  end.
Definition rstrip (l : list ascii) : list ascii :=
  reverse (lstrip (reverse l)).
Definition strip (s : string) : string := str (rstrip (lstrip (chars s))).

(** The truth value of a string: [not s] holds of the empty string only. *)
Definition truthy (s : string) : bool :=
  match s with
  | EmptyString => false
  | String _ _ => true
  end.

(** [s[-1]] of a non-empty string, and [s[:-1]]. *)
Definition last_char (s : string) : option ascii := last (chars s).
Definition drop_last (s : string) : string :=
  str (take (length (chars s) - 1) (chars s)).

(** [s.split(sep)] for a one-character separator: never an empty list. *)
Fixpoint split (sep : ascii) (s : string) : list string :=
  match s with
  | EmptyString => [EmptyString]
  | String c s' =>
      if bool_decide (c = sep) then EmptyString :: split sep s'
      else match split sep s' with
           | w :: ws => String c w :: ws
           | [] => [String c EmptyString]
           end
  end.

(** [s.split(sep, maxsplit=1)], as the pair of its first item and of the
    list of the others (none, or the remainder after the first [sep]). *)
Fixpoint split_maxsplit1 (sep : ascii) (s : string) : string * list string :=
  match s with
  | EmptyString => (EmptyString, [])
  | String c s' =>
      if bool_decide (c = sep) then (EmptyString, [s'])
      else let '(host, rest) := split_maxsplit1 sep s' in (String c host, rest)
  end.

(** [s.isdigit()]: at least one character, and digits only. *)
Definition str_isdigit (s : string) : bool :=
  truthy s && forallb isdigit (chars s).

(** [int(s)] for a string [s] of which [isdigit] holds: the superscript
    digits are no decimal digits and raise [ValueError]. *)
Definition digit_value (c : ascii) : Z := (Z.of_N (ord c) - 48)%Z.
Definition decimal (s : string) : Z :=
  foldl (fun n c => (10 * n + digit_value c)%Z) 0%Z (chars s).
Definition int (s : string) : result Z :=
  if truthy s && forallb is_ascii_digit (chars s)
  then Ok (decimal s)
  else Raise ValueError.

(** [sorted(l)] on strings, which Python compares by code point. *)
Definition sorted (l : list string) : list string := merge_sort String.le l.

(** [list(set(l))]: the elements of the set, in the order of the set. *)
Definition set (l : list string) : gset string := list_to_set l.

(** *** Regular expressions

    [re.match] anchors a pattern at the start of the string.  A final [$]
    matches at the end of the string and also just before a line feed that
    ends the string: the text matched by the rest of the pattern is the
    string itself or the string without that line feed. *)
Definition dollar_bodies (s : string) : list string :=
  s :: (if bool_decide (last_char s = Some LF) then [drop_last s] else []).

End Py.

(** ** JSON values and the [jsonschema] keywords the schemas use

  The text that [json.dumps] produces is represented by the JSON value it
  denotes, which is what [json.loads] gives back. *)

Module Json.

Inductive value : Type :=
  | Null
  | Bool (b : bool)
  | Number (z : Z)
  | Str (s : string)
  | Array (l : list value)
  | Object (l : list (string * value)).

(** [d.get(k)] on the items of an object. *)
Fixpoint getitem (k : string) (d : list (string * value)) : option value :=
  match d with
  | [] => None
  | (k', v) :: d' => if bool_decide (k' = k) then Some v else getitem k d'
  end.

Inductive json_type : Type := string_t | array_t | object_t.

Definition has_type (t : json_type) (v : value) : bool :=
  match t, v with
  | string_t, Str _ | array_t, Array _ | object_t, Object _ => true
  | _, _ => false
  end.

(** A schema is the list of the keywords of its dict. *)
Inductive keyword : Type :=
  | description (text : string)
  | type (t : json_type)
  | minLength (n : nat)
  | minItems (n : nat)
  | maxItems (n : nat)
  | items (schema : list keyword)
  | minProperties (n : nat)
  | maxProperties (n : nat)
  | properties (ps : list (string * list keyword))
  | required (names : list string).

Definition schema : Type := list keyword.

(** One keyword against an instance.  A keyword constrains the instances
    of the type it is about and accepts all others: [minItems] and [items]
    are about arrays, [minLength] about strings, the four others about
    objects. *)
Fixpoint check (k : keyword) (v : value) {struct k} : bool :=
  match k with
  | description _ => true
  | type t => has_type t v
  | minLength n =>
      match v with Str s => bool_decide (n ≤ Py.len s) | _ => true end
  | minItems n =>
      match v with Array l => bool_decide (n ≤ length l) | _ => true end
  | maxItems n =>
      match v with Array l => bool_decide (length l ≤ n) | _ => true end
  | items sch =>
      match v with
      | Array l => forallb (fun x => forallb (fun k' => check k' x) sch) l
      | _ => true
      end
  | minProperties n =>
      match v with Object d => bool_decide (n ≤ length d) | _ => true end
  | maxProperties n =>
      match v with Object d => bool_decide (length d ≤ n) | _ => true end
  | properties ps =>
      match v with
      | Object d =>
          forallb (fun p =>
            match getitem (fst p) d with
            | Some x => forallb (fun k' => check k' x) (snd p)
            | None => true
            end) ps
      | _ => true
      end
  | required names =>
      match v with
      | Object d => forallb (fun name => bool_decide (is_Some (getitem name d))) names
      | _ => true
      end
  end.

(** [jsonschema.validate(instance, schema)] raises its [ValidationError]
    unless every keyword of the schema accepts the instance. *)
Definition is_valid (instance : value) (sch : schema) : bool :=
  forallb (fun k => check k instance) sch.

End Json.

(** ** target_config_schema.py *)

Module Schema.
Import Json.

Definition NON_EMPTY_STRING : schema := [type string_t; minLength 1].

Definition TARGETS_LIST_SCHEMA : schema :=
  [ description "[<host/IPv4/domain>:<port>, ...] to scrape for metrics";
    type array_t;
    minItems 1;
    properties [("items", NON_EMPTY_STRING)] ].

Definition LABELS_DICT_SCHEMA : schema :=
  [ description "Format of the labels object";
    type object_t;
    minProperties 2;
    properties [("job", NON_EMPTY_STRING); ("env", NON_EMPTY_STRING)];
    required ["job"; "env"] ].

Definition TARGET_CONFIG_OBJECT_SCHEMA : schema :=
  [ description "Format of the elements of the TARGET_CONFIG_FILE_SCHEMA array";
    type object_t;
    minProperties 2;
    maxProperties 2;
    properties [("targets", TARGETS_LIST_SCHEMA); ("labels", LABELS_DICT_SCHEMA)];
    required ["targets"; "labels"] ].

Definition TARGET_CONFIG_FILE_SCHEMA : schema :=
  [ description "Format of the contents of a target config file";
    type array_t;
    maxItems 1;
    minItems 1;
    items TARGET_CONFIG_OBJECT_SCHEMA ].

End Schema.

(** ** Libraries the code imports

    [validators.domain] and [validators.ipv4] of the [validators] package,
    [METRIC_LABEL_NAME_RE] of [prometheus_client] and [hashlib.md5] are not
    part of the repository: the embedding is parametric in them. *)

Class Validators : Type := {
  (** [validators.domain(host)] is truthy *)
  validators_domain : string → bool;
  (** [validators.ipv4(host)] is truthy *)
  validators_ipv4 : string → bool;
}.

Class PrometheusClient : Type := {
  (** [METRIC_LABEL_NAME_RE.match(label_name)] is a match *)
  METRIC_LABEL_NAME_RE_match : string → bool;
}.

Class Hashlib : Type := {
  (** [md5(s.encode("utf-8")).hexdigest()] *)
  md5_hexdigest : string → string;
}.

(** ** target_config.py *)

Import Py.

(** An [asyncio.Lock] is known by its identity. *)
Definition Lock : Type := nat.

Record TargetConfig : Type := mkTargetConfig {
  application : string;
  environment : string;
  targets : list string;
  labels : gmap string string;
  _filename : option string;
  _file_lock : Lock;
}.

Definition set_targets (self : TargetConfig) (v : list string) : TargetConfig :=
  mkTargetConfig (application self) (environment self) v (labels self)
                 (_filename self) (_file_lock self).
Definition set_labels (self : TargetConfig) (v : gmap string string) : TargetConfig :=
  mkTargetConfig (application self) (environment self) (targets self) v
                 (_filename self) (_file_lock self).
Definition set__filename (self : TargetConfig) (v : option string) : TargetConfig :=
  mkTargetConfig (application self) (environment self) (targets self)
                 (labels self) v (_file_lock self).

(** The items of a request dict, in insertion order. *)
Definition items : Type := list (string * string).

(** [k in d] and [not d] for the items of a dict; [not l] for a list. *)
Definition has_key (k : string) (d : items) : bool := bool_decide (k ∈ d.*1).
Definition nonempty {A} (l : list A) : bool :=
  match l with
  | [] => false
  | _ :: _ => true
  end.

(** [HOSTNAME_RE = re.compile(r"(?!-)[a-z0-9-]{1,63}(?<!-)$", re.IGNORECASE)].
    Below 256, the characters that [[a-z]] matches whatever their case are
    the 52 letters of ASCII. *)
Definition hostname_char (c : ascii) : bool :=
  is_ascii_alpha c || is_ascii_digit c || bool_decide (c = "-"%char).

Definition HOSTNAME_RE_match (label : string) : bool :=
  existsb (fun body =>
      negb (bool_decide (head (chars body) = Some "-"%char))   (* (?!-) *)
      && bool_decide (1 ≤ len body ≤ 63)                       (* {1,63} *)
      && forallb hostname_char (chars body)                    (* [a-z0-9-] *)
      && negb (bool_decide (last_char body = Some "-"%char)))  (* (?<!-) *)
    (dollar_bodies label).

(** [re.match(r"[0-9]+$", label)] *)
Definition all_numeric_match (label : string) : bool :=
  existsb (fun body => truthy body && forallb is_ascii_digit (chars body))
    (dollar_bodies label).

(** [valid_hostname], whose decorator [@validators.validator] keeps the
    truth value of what the function returns. *)
Definition valid_hostname (hostname : string) : bool :=
  if negb (truthy (strip hostname)) then false
  else
    let hostname :=
      if bool_decide (last_char hostname = Some "."%char)
      then drop_last hostname   (* strip exactly one dot from the right *)
      else hostname in
    if bool_decide (253 < len hostname) then false
    else
      let labels := split "." hostname in
      (* the TLD must be not all-numeric *)
      if all_numeric_match (default EmptyString (last labels)) then false
      else forallb HOSTNAME_RE_match labels.

Section validate.
Context `{Validators, PrometheusClient}.

Definition valid_host (host : string) : result bool :=
  if valid_hostname host then Ok true
  else if validators_domain host then Ok true
  else if validators_ipv4 host then Ok true
  else Raise ValueError.

Definition valid_port (port : string) : result bool :=
  if negb (str_isdigit port) then Raise ValueError
  else
    n ← int port;
    if negb (bool_decide (1 ≤ n < 2 ^ 16)%Z) then Raise ValueError
    else Ok true.

Definition validate_target (target : string) : result bool :=
  let '(host, rest) := split_maxsplit1 ":" target in
  if negb (truthy (strip host)) then Raise ValueError
  else
    let port :=
      match rest with
      | [] => "80"   (* Prometheus' default *)
      | port :: _ => port
      end in
    ok ← valid_host host;
    if (ok : bool) then valid_port port else Ok ok.

(** [all(self.validate_target(target) for target in targets)] *)
Fixpoint validate_targets (targets : list string) : result bool :=
  match targets with
  | [] => Ok true
  | target :: targets' =>
      ok ← validate_target target;
      if (ok : bool) then validate_targets targets' else Ok false
  end.

(** [label_value.encode("utf-8")] cannot fail on code points below 256. *)
Definition validate_label (label_name label_value : string) : result bool :=
  if negb (METRIC_LABEL_NAME_RE_match label_name) then Raise ValueError
  else Ok true.

(** [all(self.validate_label(n, v) for n, v in labels.items())] *)
Fixpoint validate_label_items (labels : items) : result bool :=
  match labels with
  | [] => Ok true
  | (label_name, label_value) :: labels' =>
      ok ← validate_label label_name label_value;
      if (ok : bool) then validate_label_items labels' else Ok false
  end.

Definition validate_labels (labels : gmap string string) : result bool :=
  validate_label_items (map_to_list labels).

Definition __attrs_post_init__ (self : TargetConfig) : TargetConfig :=
  let self :=
    if bool_decide (labels self = ∅)
    then set_labels self {[ "job" := application self; "env" := environment self ]}
    else self in
  let self :=
    if bool_decide ("job" ∉ dom (labels self))
    then set_labels self (<["job" := application self]> (labels self))
    else self in
  if bool_decide ("env" ∉ dom (labels self))
  then set_labels self (<["env" := environment self]> (labels self))
  else self.

(** [TargetConfig(application=..., environment=..., targets=..., labels=...,
    file_lock=...)]: the generated [__init__] stores the attributes, runs the
    validators of [targets] and [labels] and then [__attrs_post_init__].  The
    default of [file_lock] is a new lock, whose identity the caller of the
    model supplies. *)
Definition TargetConfig_init (application environment : string)
    (targets : list string) (labels : gmap string string) (file_lock : Lock)
    : result TargetConfig :=
  validate_targets targets;;
  validate_labels labels;;
  Ok (__attrs_post_init__
        (mkTargetConfig application environment targets labels None file_lock)).

(** [__eq__] *)
Definition TargetConfig_eq (self other : TargetConfig) : bool :=
  bool_decide (application self = application other)
  && bool_decide (environment self = environment other)
  && bool_decide (sorted (targets self) = sorted (targets other))
  && bool_decide (labels self = labels other).

(** [__deepcopy__]: [attr.evolve(self, file_lock=self._file_lock)] calls the
    constructor with the attributes of [self] that [__init__] takes.  The
    copy shares the list of the targets and the dict of the labels with the
    original; [put], the handler embedded below, assigns new ones to the copy
    and changes neither in place. *)
Definition __deepcopy__ (self : TargetConfig) : result TargetConfig :=
  TargetConfig_init (application self) (environment self) (targets self)
                    (labels self) (_file_lock self).

End validate.

(** *** Serialisation, and the file system the files live in *)

(** The [json] property:
    [json.dumps([{"targets": self.targets, "labels": self.labels}])].  The
    targets come in the order of the list; the order of the labels, which no
    reader of the object depends on, is that of the map. *)
Definition TargetConfig_json (self : TargetConfig) : Json.value :=
  Json.Array
    [ Json.Object
        [ ("targets", Json.Array (Json.Str <$> targets self));
          ("labels", Json.Object (prod_map id Json.Str <$> map_to_list (labels self))) ] ].

(** [valid_prometheus_json]: [False] when [jsonschema.validate] raises its
    [ValidationError], [True] otherwise. *)
Definition valid_prometheus_json (self : TargetConfig) : bool :=
  Json.is_valid (TargetConfig_json self) Schema.TARGET_CONFIG_FILE_SCHEMA.

(** The directories that exist and the content of the files that exist. *)
Record filesystem : Type := mkfilesystem {
  dirs : gset string;
  files : gmap string Json.value;
}.

Definition isdir (fs : filesystem) (directory : string) : bool :=
  bool_decide (directory ∈ dirs fs).

(** [os.path.join(a, b)] of [posixpath]. *)
Definition path_join (a b : string) : string :=
  if bool_decide (head (chars b) = Some "/"%char) then b
  else if negb (truthy a) || bool_decide (last_char a = Some "/"%char) then a +:+ b
  else a +:+ "/" +:+ b.

(** Opening a file with mode ["w"] and writing its whole content. *)
Definition write_file (file_path : string) (content : Json.value)
    (fs : filesystem) : filesystem :=
  mkfilesystem (dirs fs) (<[file_path := content]> (files fs)).

(** The values that the typed attributes can hold: a list of strings and a
    dict of strings.  Content of another shape is refused with [TypeError]. *)
Definition as_str (v : Json.value) : result string :=
  match v with
  | Json.Str s => Ok s
  | _ => Raise TypeError
  end.

Fixpoint as_str_list (l : list Json.value) : result (list string) :=
  match l with
  | [] => Ok []
  | v :: l' => s ← as_str v; ss ← as_str_list l'; Ok (s :: ss)
  end.

Fixpoint as_str_items (d : list (string * Json.value)) : result items :=
  match d with
  | [] => Ok []
  | (k, v) :: d' => s ← as_str v; kvs ← as_str_items d'; Ok ((k, s) :: kvs)
  end.

(** [d[k]] on the items of an object: [KeyError] when the key is absent. *)
Definition subscript (k : string) (d : list (string * Json.value)) : result Json.value :=
  match Json.getitem k d with
  | Some v => Ok v
  | None => Raise KeyError
  end.

Definition as_object (v : Json.value) : result (list (string * Json.value)) :=
  match v with
  | Json.Object d => Ok d
  | _ => Raise TypeError
  end.

Section target_config.
Context `{Validators, PrometheusClient, Hashlib}.

(** The body of [from_json_file] once [json.load] has parsed the file. *)
Definition from_json (target_config_list : Json.value) (file_lock : Lock)
    : result TargetConfig :=
  match target_config_list with
  | Json.Array [] => Raise IndexError
  | Json.Array (target_config_dict :: _) =>
      d ← as_object target_config_dict;
      labels_v ← subscript "labels" d;
      labels_d ← as_object labels_v;
      job ← subscript "job" labels_d ≫= as_str;
      env ← subscript "env" labels_d ≫= as_str;
      targets_v ← subscript "targets" d;
      targets_l ← match targets_v with
                   | Json.Array l => as_str_list l
                   | _ => Raise TypeError
                   end;
      labels_l ← as_str_items labels_d;
      TargetConfig_init job env targets_l (list_to_map labels_l) file_lock
  | Json.Object _ => Raise KeyError
  | Json.Str EmptyString => Raise IndexError
  | _ => Raise TypeError
  end.

(** [from_json_file(target_config_file_path)] *)
Definition from_json_file (fs : filesystem) (target_config_file_path : string)
    (file_lock : Lock) : result TargetConfig :=
  match files fs !! target_config_file_path with
  | None => Raise FileNotFoundError
  | Some content => from_json content file_lock
  end.

(** The [filename] property, which caches the hash in [_filename]. *)
Definition filename : M TargetConfig string :=
  self ← get_state;
  (if bool_decide (_filename (self : TargetConfig) = None)
   then put_state (set__filename self
               (Some (md5_hexdigest (application self +:+ environment self))))
   else ret tt);;
  self ← get_state;
  ret (default EmptyString (_filename (self : TargetConfig)) +:+ ".json").

(** [write_to_file(directory)], on the record and the file system.  The lock
    is free when the coroutine reaches it, as no other coroutine runs. *)
Definition write_to_file (directory : string) : M (TargetConfig * filesystem) unit :=
  st ← get_state;
  if negb (valid_prometheus_json (st : TargetConfig * filesystem).1)
  then raise TypeError
  else if negb (isdir st.2 directory)
  then raise FileNotFoundError
  else
    name ← on_fst filename;
    st ← get_state;
    let file_path := path_join directory name in
    put_state ((st : TargetConfig * filesystem).1,
         write_file file_path (TargetConfig_json st.1) st.2).

(** *** The mutations of a record

    The parameters that the source calls [targets] and [labels] are called
    [new_targets], [new_labels], [del_targets] and [del_labels] here, the
    attributes keeping their names. *)

Definition update_with_new_targets (new_targets : list string) : M TargetConfig bool :=
  if negb (nonempty new_targets) then ret false
  else if negb (bool_decide (sorted (elements (set new_targets)) = sorted new_targets))
  then ret false
  else
    returned ← for_in new_targets (fun target =>
      self ← get_state;
      if bool_decide (target ∈ targets (self : TargetConfig)) then ret (Some false)
      else lift (validate_target target);; ret None);
    match (returned : option bool) with
    | Some b => ret b
    | None =>
        self ← get_state;
        (* self.targets.extend(targets) *)
        put_state (set_targets self (targets (self : TargetConfig) ++ new_targets));;
        ret true
    end.

(** [self.labels.update(labels)] *)
Definition dict_update (d : gmap string string) (new_labels : items)
    : gmap string string :=
  foldl (fun d kv => <[kv.1 := kv.2]> d) d new_labels.

Definition update_with_new_labels (new_labels : items) : M TargetConfig bool :=
  if negb (nonempty new_labels) then ret false
  else
    returned ← for_in new_labels (fun '(name, value) =>
      self ← get_state;
      match labels (self : TargetConfig) !! name with
      | None => ret None   (* continue *)
      | Some current =>
          if negb (truthy (strip value)) then ret (Some false)
          else if bool_decide (current = value) then ret (Some false)
          else lift (validate_label name value);; ret None
      end);
    match (returned : option bool) with
    | Some b => ret b
    | None =>
        self ← get_state;
        put_state (set_labels self (dict_update (labels (self : TargetConfig)) new_labels));;
        ret true
    end.

Definition delete_from_targets (del_targets : list string) : M TargetConfig bool :=
  self ← get_state;
  if negb (nonempty del_targets) then ret false
  else if negb (forallb (fun target => bool_decide (target ∈ targets (self : TargetConfig)))
                        del_targets)
  then ret false
  else if negb (bool_decide (sorted (elements (set del_targets)) = sorted del_targets))
  then ret false
  else if bool_decide (length del_targets = length (targets self))
  then ret false
  else
    put_state (set_targets self (elements (set (targets self) ∖ set del_targets)));;
    ret true.

(** [del self.labels[label]]: [KeyError] when the key is absent. *)
Definition del_label (label : string) : M TargetConfig unit :=
  self ← get_state;
  match labels (self : TargetConfig) !! label with
  | None => raise KeyError
  | Some _ => put_state (set_labels self (delete label (labels self)))
  end.

Definition delete_from_labels (del_labels : items) : M TargetConfig bool :=
  if negb (nonempty del_labels) then ret false
  else if has_key "job" del_labels || has_key "env" del_labels then ret false
  else
    returned ← for_in del_labels (fun '(label_name, label_value) =>
      self ← get_state;
      match labels (self : TargetConfig) !! label_name with
      | None => ret (Some false)
      | Some current =>
          if negb (bool_decide (label_value = current)) then ret (Some false)
          else ret None
      end);
    match (returned : option bool) with
    | Some b => ret b
    | None =>
        for_in del_labels (fun '(label, _) => del_label label;; ret (None : option bool));;
        ret true
    end.

End target_config.

(** ** rest_api.py: the PUT handler *)

(** [REST_APP.config]: the registry of the records, by file name, and the
    directory of the files. *)
Record rest_app : Type := mkrest_app {
  target_configs : gmap string TargetConfig;
  file_sd_directory : string;
}.

(** The truth value of an optional list or dict: [None] and the empty
    container are false. *)
Definition provided {A} (request : option (list A)) : bool :=
  match request with
  | Some (_ :: _) => true
  | _ => false
  end.

Section rest_api.
Context `{Validators, PrometheusClient, Hashlib}.

(** [targets_in_request] and [labels_in_request] once the body is decoded:
    the targets found are checked against [TARGETS_LIST_SCHEMA], the labels
    found with [validate_label]. *)
Definition targets_in_request (request_targets : option (list string))
    : result (option (list string)) :=
  match request_targets with
  | None => Ok None
  | Some l =>
      if Json.is_valid (Json.Array (Json.Str <$> l)) Schema.TARGETS_LIST_SCHEMA
      then Ok (Some l)
      else Raise ValidationError
  end.

Definition labels_in_request (request_labels : option items)
    : result (option items) :=
  match request_labels with
  | None => Ok None
  | Some d => validate_label_items d;; Ok (Some d)
  end.

(** [replace_labels_for_put(target_config, new_labels)]: the state is
    [target_config]; [new_labels], which the function extends, is a local. *)
Definition replace_labels_for_put (new_labels : items) : M TargetConfig unit :=
  target_config ← get_state;
  new_labels ←
    (if negb (has_key "job" new_labels)
     then match labels (target_config : TargetConfig) !! "job" with
          | Some job => ret (new_labels ++ [("job", job)])
          | None => raise KeyError
          end
     else ret new_labels);
  new_labels ←
    (if negb (has_key "env" (new_labels : items))
     then match labels target_config !! "env" with
          | Some env => ret (new_labels ++ [("env", env)])
          | None => raise KeyError
          end
     else ret new_labels);
  lift (validate_label_items (new_labels : items));;
  put_state (set_labels target_config (list_to_map new_labels)).

(** [find_or_create_target_config]; [deepcopy] calls [__deepcopy__]. *)
Definition find_or_create_target_config (application environment : string)
    (target_configs : gmap string TargetConfig) (file_lock : Lock)
    : result TargetConfig :=
  looking_for ← TargetConfig_init application environment [] ∅ file_lock;
  match filename looking_for with
  | (Raise e, _) => Raise e
  | (Ok name, looking_for) =>
      match target_configs !! name with
      | Some found_target => __deepcopy__ found_target
      | None => Ok looking_for
      end
  end.

(** [for request_target in request_targets:
        target_config.validate_target(request_target)] *)
Fixpoint validate_each_target (request_targets : list string) : result unit :=
  match request_targets with
  | [] => Ok tt
  | request_target :: request_targets' =>
      validate_target request_target;;
      validate_each_target request_targets'
  end.

(** The record that [put] builds before it writes it. *)
Definition put_target_config (application environment : string)
    (request_targets : option (list string)) (request_labels : option items)
    (target_configs : gmap string TargetConfig) (file_lock : Lock)
    : result TargetConfig :=
  if provided request_targets && provided request_labels
  then
    TargetConfig_init application environment (default [] request_targets)
      (list_to_map (default [] request_labels)) file_lock
  else
    target_config ←
      find_or_create_target_config application environment target_configs file_lock;
    target_config ←
      (if provided request_targets
       then
         validate_each_target (default [] request_targets);;
         Ok (set_targets target_config (default [] request_targets))
       else Ok target_config);
    if provided request_labels
    then match replace_labels_for_put (default [] request_labels) target_config with
         | (Ok _, target_config) => Ok target_config
         | (Raise e, _) => Raise e
         end
    else Ok target_config.

(** [put(application, environment)] on the decoded body of the request: the
    state is the registry and the file system, the value the body of the
    response.  An exception leaves the handler as it is raised; it is
    [targets_management] that answers it. *)
Definition put (application environment : string)
    (body_targets : option (list string)) (body_labels : option items)
    (file_lock : Lock) : M (rest_app * filesystem) Json.value :=
  request_targets ← lift (targets_in_request body_targets);
  request_labels ← lift (labels_in_request body_labels);
  st ← get_state;
  target_config ← lift (put_target_config application environment
                          request_targets request_labels
                          (target_configs (st : rest_app * filesystem).1) file_lock);
  match write_to_file (file_sd_directory st.1) (target_config, st.2) with
  | (Raise e, (_, fs)) => put_state (st.1, fs);; raise e
  | (Ok _, (target_config, fs)) =>
      (* save_in_app_config(target_config) *)
      match filename target_config with
      | (Raise e, _) => put_state (st.1, fs);; raise e
      | (Ok name, target_config) =>
          put_state (mkrest_app (<[name := target_config]> (target_configs st.1))
                                (file_sd_directory st.1), fs);;
          ret (TargetConfig_json target_config)
      end
  end.

End rest_api.

(** ** Instances of the libraries for the examples *)

(** Modelled from the spec: [METRIC_LABEL_NAME_RE] of [prometheus_client],
    which is not in the repository; a label name matches the grammar
    [[a-zA-Z_][a-zA-Z0-9_]*]. *)
Definition label_name_grammar (label_name : string) : bool :=
  match chars label_name with
  | [] => false
  | c :: cs =>
      (is_ascii_alpha c || bool_decide (c = "_"%char))
      && forallb (fun c => is_ascii_alpha c || is_ascii_digit c
                           || bool_decide (c = "_"%char)) cs
  end.

Definition spec_label_names : PrometheusClient :=
  {| METRIC_LABEL_NAME_RE_match := label_name_grammar |}.

(** A [validators] package that accepts no host: the hosts of the examples
    are host names, and none of them is a domain name or an IPv4 address for
    the package. *)
Definition hostnames_only : Validators :=
  {| validators_domain := fun _ => false; validators_ipv4 := fun _ => false |}.

(** A stand-in for the digest, which no property depends on. *)
Definition plain_digest : Hashlib := {| md5_hexdigest := fun s => s |}.

(** ** Notions of the specification *)

(** A blank string: nothing is left of it once stripped. *)
Definition blank (s : string) : Prop := strip s = EmptyString.

(** An item of a request is a true change of a record when, if the record
    has its label, its value is not blank and differs from the stored one;
    it is a well-formed update when, if the record has its label, the name
    of the label passes [validate_label]. *)
Definition true_change (self : TargetConfig) (kv : string * string) : Prop :=
  ∀ current, labels self !! kv.1 = Some current → ¬ blank kv.2 ∧ current ≠ kv.2.

Definition well_formed_update `{PrometheusClient} (self : TargetConfig)
    (kv : string * string) : Prop :=
  ∀ current, labels self !! kv.1 = Some current →
             METRIC_LABEL_NAME_RE_match kv.1 = true.

(** The targets of the specification, in its words: the host, which is
    what comes before the first colon, is not blank and is a host name, a
    domain name or an IPv4 address; the port, when there is one, is made of
    decimal digits and denotes a number from 1 to 65535.  A host name is a
    sequence of at most 253 characters, made of labels separated by dots;
    a label has from 1 to 63 characters, which are letters, digits and
    hyphens, and neither starts nor ends with a hyphen; the last label is
    not made of digits only. *)
Definition spec_label (label : string) : bool :=
  bool_decide (1 ≤ len label ≤ 63)
  && forallb (fun c => is_ascii_alpha c || is_ascii_digit c
                       || bool_decide (c = "-"%char)) (chars label)
  && negb (bool_decide (head (chars label) = Some "-"%char))
  && negb (bool_decide (last (chars label) = Some "-"%char)).

Definition purely_numeric (label : string) : bool :=
  truthy label && forallb is_ascii_digit (chars label).

Definition spec_hostname (host : string) : bool :=
  bool_decide (len host ≤ 253)
  && forallb spec_label (split "." host)
  && negb (purely_numeric (default EmptyString (last (split "." host)))).

Definition spec_port (port : string) : bool :=
  truthy port && forallb is_ascii_digit (chars port)
  && bool_decide (1 ≤ decimal port ≤ 65535)%Z.

Definition spec_target `{Validators} (hostname : string → bool)
    (target : string) : bool :=
  let '(host, rest) := split_maxsplit1 ":" target in
  negb (forallb isspace (chars host))
  && (hostname host || validators_domain host || validators_ipv4 host)
  && match rest with
     | [] => true
     | port :: _ => spec_port port
     end.

(** The host names of the code: a host name of the specification, or one
    followed by a single dot. *)
Definition dotted_hostname (host : string) : bool :=
  spec_hostname (if bool_decide (last (chars host) = Some "."%char)
                 then drop_last host else host).

(** The protected labels of a record. *)
Definition protected (self : TargetConfig) : Prop :=
  is_Some (labels self !! "job") ∧ is_Some (labels self !! "env").

(** The operations that change a record that exists: the four mutations of
    [target_config.py] and the two replacements that [put] makes. *)
Inductive mutation : Type :=
  | Update_with_new_targets (new_targets : list string)
  | Update_with_new_labels (new_labels : items)
  | Delete_from_targets (del_targets : list string)
  | Delete_from_labels (del_labels : items)
  | Put_targets (request_targets : list string)
  | Put_labels (request_labels : items).

(** The record after an operation, whatever its outcome. *)
Definition after `{Validators, PrometheusClient} (m : mutation)
    (self : TargetConfig) : TargetConfig :=
  match m with
  | Update_with_new_targets new_targets => (update_with_new_targets new_targets self).2
  | Update_with_new_labels new_labels => (update_with_new_labels new_labels self).2
  | Delete_from_targets del_targets => (delete_from_targets del_targets self).2
  | Delete_from_labels del_labels => (delete_from_labels del_labels self).2
  | Put_targets request_targets =>
      match validate_each_target request_targets with
      | Ok _ => set_targets self request_targets
      | Raise _ => self
      end
  | Put_labels request_labels => (replace_labels_for_put request_labels self).2
  end.

(** ** The state of the examples *)

(** A registry without records over a file system whose only directory is
    the directory of the files. *)
Definition empty_app : rest_app * filesystem :=
  (mkrest_app ∅ "/sd", mkfilesystem {[ "/sd" ]} ∅).


(** ** The rest of target_config.py and the GET handler *)

(** [__ne__] *)
Definition TargetConfig_ne (self other : TargetConfig) : bool :=
  negb (TargetConfig_eq self other).

(** [os.path.isfile(path)], and [aiofiles.os.remove(path)] of a file that
    exists. *)
Definition isfile (fs : filesystem) (path : string) : bool :=
  bool_decide (is_Some (files fs !! path)).

Definition remove_file (path : string) (fs : filesystem) : filesystem :=
  mkfilesystem (dirs fs) (delete path (files fs)).

Section files.
Context `{Validators, PrometheusClient, Hashlib}.

(** [read_from_file(directory)]: the content of the file of the record. *)
Definition read_from_file (directory : string)
    : M (TargetConfig * filesystem) Json.value :=
  st ← get_state;
  if negb (isdir (st : TargetConfig * filesystem).2 directory)
  then raise FileNotFoundError
  else
    name ← on_fst filename;
    let json_file := path_join directory name in
    st ← get_state;
    match files (st : TargetConfig * filesystem).2 !! json_file with
    | None => raise FileNotFoundError
    | Some content => ret content
    end.

(** [delete_file(directory)] *)
Definition delete_file (directory : string) : M (TargetConfig * filesystem) unit :=
  st ← get_state;
  if negb (isdir (st : TargetConfig * filesystem).2 directory)
  then raise FileNotFoundError
  else
    name ← on_fst filename;
    let abs_file_path := path_join directory name in
    st ← get_state;
    if negb (isfile (st : TargetConfig * filesystem).2 abs_file_path)
    then raise FileNotFoundError
    else put_state (st.1, remove_file abs_file_path st.2).

(** [maybe_find_target_config]: a copy of the record of the registry, or
    [None]. *)
Definition maybe_find_target_config (application environment : string)
    (target_configs : gmap string TargetConfig) (file_lock : Lock)
    : result (option TargetConfig) :=
  looking_for ← TargetConfig_init application environment [] ∅ file_lock;
  match filename looking_for with
  | (Raise e, _) => Raise e
  | (Ok name, _) =>
      match target_configs !! name with
      | Some current_target =>
          copy ← __deepcopy__ current_target; Ok (Some copy)
      | None => Ok None
      end
  end.

(** [get(application, environment)]: the body of the response. *)
Definition get (application environment : string) (file_lock : Lock)
    : M (rest_app * filesystem) Json.value :=
  st ← get_state;
  target_config ← lift (maybe_find_target_config application environment
                          (target_configs (st : rest_app * filesystem).1) file_lock);
  match target_config with
  | Some target_config => ret (TargetConfig_json target_config)
  | None => ret (Json.Array [])
  end.

End files.

(** A registry is keyed when every record is stored under its own file
    name. *)
Definition keyed `{Hashlib} (registry : gmap string TargetConfig) : Prop :=
  map_Forall (fun name self =>
    name = md5_hexdigest (application self +:+ environment self) +:+ ".json")
    registry.

(** A record is well formed when the validators of the constructor accept
    its targets and its labels. *)
Definition well_formed `{Validators, PrometheusClient} (self : TargetConfig) : Prop :=
  validate_targets (targets self) = Ok true
  ∧ validate_labels (labels self) = Ok true.

(** * Properties *)

(** ** The built-ins *)

(** Runs the monadic steps of a method on the state at hand. *)
Ltac run_M :=
  repeat progress
    (unfold mbind, M_bind, bind, mret, M_ret, ret, raise, get_state, put_state,
       lift, on_fst in *;
     simpl in *).

Lemma sorted_set_NoDup (l : list string) :
  sorted (elements (set l)) = sorted l ↔ NoDup l.
Proof.
  unfold sorted, set. split.
  - intros Heq.
    assert (elements (list_to_set (C:=gset string) l) ≡ₚ l) as Hperm.
    { etrans; [symmetry; apply (merge_sort_Permutation String.le)|].
      rewrite Heq. apply merge_sort_Permutation. }
    rewrite <- Hperm. apply NoDup_elements.
  - intros Hnd.
    apply (StronglySorted_unique String.le).
    + apply StronglySorted_merge_sort; apply _.
    + apply StronglySorted_merge_sort; apply _.
    + rewrite !merge_sort_Permutation. by apply elements_list_to_set.
Qed.

Lemma nonempty_true {A} (l : list A) : nonempty l = true ↔ l ≠ [].
Proof. destruct l; simpl; split; congruence. Qed.

Lemma for_in_cons {S A B} (x : A) (l : list A) (body : A → M S (option B)) (s : S) :
  for_in (x :: l) body s =
    match body x s with
    | (Ok (Some v), s') => (Ok (Some v), s')
    | (Ok None, s') => for_in l body s'
    | (Raise e, s') => (Raise e, s')
    end.
Proof.
  simpl. unfold bind. destruct (body x s) as [[[v|]|e] s']; reflexivity.
Qed.

(** A loop whose body neither returns nor raises nor changes the state on
    any item runs to its end. *)
Lemma for_in_skip {S A B} (l : list A) (body : A → M S (option B)) (s : S) :
  (∀ x, x ∈ l → body x s = (Ok None, s)) →
  for_in l body s = (Ok None, s).
Proof.
  induction l as [|x l IH]; intros Hbody; [reflexivity|].
  rewrite for_in_cons, Hbody by left.
  apply IH. intros y Hy. apply Hbody. by right.
Qed.

(** A loop stops at the first item on which the body returns or raises. *)
Lemma for_in_stop {S A B} (l1 l2 : list A) (x : A) (body : A → M S (option B))
    (s s' : S) (r : result (option B)) :
  (∀ y, y ∈ l1 → body y s = (Ok None, s)) →
  body x s = (r, s') → r ≠ Ok None →
  for_in (l1 ++ x :: l2) body s = (r, s').
Proof.
  induction l1 as [|y l1 IH]; intros Hbody Hx Hr; simpl app.
  - rewrite for_in_cons, Hx. destruct r as [[v|]|e]; congruence.
  - rewrite for_in_cons, Hbody by left.
    apply IH; [|done..]. intros z Hz. apply Hbody. by right.
Qed.

(** ** Records *)

Lemma set_labels_set_labels (self : TargetConfig) (m1 m2 : gmap string string) :
  set_labels (set_labels self m1) m2 = set_labels self m2.
Proof. reflexivity. Qed.

Lemma set_labels_id (self : TargetConfig) : set_labels self (labels self) = self.
Proof. by destruct self. Qed.

Lemma set_targets_id (self : TargetConfig) : set_targets self (targets self) = self.
Proof. by destruct self. Qed.

(** ** [delete_from_labels] *)

Section delete_from_labels.
Context `{Validators, PrometheusClient, Hashlib}.

(** The first loop: every item must name a stored label with its value. *)
Lemma delete_from_labels_check (self : TargetConfig) (del_labels : items) :
  for_in del_labels (fun '(label_name, label_value) =>
      self ← get_state;
      match labels (self : TargetConfig) !! label_name with
      | None => ret (Some false)
      | Some current =>
          if negb (bool_decide (label_value = current)) then ret (Some false)
          else ret None
      end) self
  = (Ok (if forallb (fun kv => bool_decide (labels self !! kv.1 = Some kv.2)) del_labels
         then None else Some false), self).
Proof.
  induction del_labels as [|[k v] d IH]; [done|].
  rewrite for_in_cons. run_M.
  destruct (labels self !! k) as [cur|] eqn:Hk; simpl.
  - destruct (bool_decide_reflect (v = cur)) as [->|Hne]; simpl.
    + rewrite IH. by case_bool_decide.
    + case_bool_decide; [congruence|done].
  - done.
Qed.

(** The second loop deletes the keys one by one. *)
Lemma delete_from_labels_delete (self : TargetConfig) (del_labels : items) :
  NoDup del_labels.*1 →
  (∀ k, k ∈ del_labels.*1 → is_Some (labels self !! k)) →
  for_in del_labels (fun '(label, _) => del_label label;; ret (None : option bool)) self
  = (Ok None, set_labels self (labels self ∖ list_to_map del_labels)).
Proof.
  revert self. induction del_labels as [|[k v] d IH]; intros self Hnd Hin.
  - simpl. unfold ret. by rewrite map_difference_empty, set_labels_id.
  - rewrite for_in_cons. unfold del_label in *. run_M.
    destruct (Hin k) as [cur Hk]; [by left|]. rewrite Hk.
    apply NoDup_cons in Hnd as [Hk_d Hnd].
    rewrite IH; [|done|].
    + simpl. f_equal. rewrite set_labels_set_labels. f_equal.
      apply map_eq. intros j.
      rewrite !lookup_difference, lookup_delete, lookup_insert.
      repeat case_decide; simplify_eq; try done.
      by destruct (list_to_map d !! j).
    + intros j Hj. simpl. rewrite lookup_delete_ne; [|by intros ->].
      apply Hin. by right.
Qed.

(** C5. [delete_from_labels] is a compare-and-delete: it returns [True] and
    removes exactly the keys of the request from [labels] when the request is
    not empty, names neither [job] nor [env], and gives for every key the
    value that is stored; in every other case it returns [False] and leaves
    the record as it is.  The request is a dict: its keys are distinct. *)
Theorem delete_from_labels_spec (self : TargetConfig) (del_labels : items) :
  NoDup del_labels.*1 →
  let confirmed :=
    del_labels ≠ [] ∧ ("job" ∉ del_labels.*1) ∧ ("env" ∉ del_labels.*1)
    ∧ ∀ k v, (k, v) ∈ del_labels → labels self !! k = Some v in
  (confirmed
   ∧ delete_from_labels del_labels self
     = (Ok true, set_labels self (labels self ∖ list_to_map del_labels)))
  ∨ (¬ confirmed ∧ delete_from_labels del_labels self = (Ok false, self)).
Proof.
  intros Hnd confirmed. subst confirmed.
  destruct (delete_from_labels del_labels self) as [r self'] eqn:Hrun.
  unfold delete_from_labels, has_key in Hrun.
  destruct (nonempty del_labels) eqn:Hne; simpl in Hrun; cycle 1.
  { right. split; [|done]. intros [Hne' _]. apply nonempty_true in Hne'. congruence. }
  apply nonempty_true in Hne.
  destruct (bool_decide_reflect ("job" ∈ del_labels.*1)) as [Hjob|Hjob]; simpl in Hrun.
  { right. split; [|done]. intros (_ & Hn & _). by apply Hn. }
  destruct (bool_decide_reflect ("env" ∈ del_labels.*1)) as [Henv|Henv]; simpl in Hrun.
  { right. split; [|done]. intros (_ & _ & Hn & _). by apply Hn. }
  unfold mbind at 1 in Hrun. unfold M_bind, bind in Hrun.
  rewrite delete_from_labels_check in Hrun.
  destruct (forallb _ del_labels) eqn:Hall.
  - apply Is_true_true, forallb_True in Hall. rewrite Forall_forall in Hall.
    assert (∀ k v, (k, v) ∈ del_labels → labels self !! k = Some v) as Hall'.
    { intros k v Hin. specialize (Hall (k, v) Hin). by apply bool_decide_unpack in Hall. }
    left. split; [done|].
    unfold mbind, M_bind, bind in Hrun.
    rewrite delete_from_labels_delete in Hrun; [done|done|].
    intros k [[k' v] [-> Hin]]%list_elem_of_fmap. simpl.
    rewrite (Hall' _ _ Hin). eauto.
  - right. split; [|done]. intros (_ & _ & _ & Hall').
    apply not_true_iff_false in Hall. apply Hall, Is_true_true, forallb_True.
    rewrite Forall_forall. intros [k v] Hin. apply bool_decide_pack. by apply Hall'.
Qed.

(** Deleting [{"team": "a"}] from [{"job": "app", "env": "env", "team": "a"}]
    is confirmed. *)
Lemma delete_from_labels_spec_witness :
  let self := mkTargetConfig "app" "env" ["h:1"]
                {[ "job" := "app"; "env" := "env"; "team" := "a" ]} None 0 in
  NoDup [("team", "a")].*1
  ∧ delete_from_labels [("team", "a")] self
    = (Ok true, set_labels self (labels self ∖ list_to_map [("team", "a")])).
Proof.
  intros self.
  assert (NoDup [("team", "a")].*1) as Hnd by apply NoDup_singleton.
  split; [exact Hnd|].
  destruct (delete_from_labels_spec self [("team", "a")] Hnd) as [[_ Hrun]|[Hnot _]].
  - exact Hrun.
  - exfalso. apply Hnot. simpl. split; [done|].
    split; [by intros ?%list_elem_of_singleton|].
    split; [by intros ?%list_elem_of_singleton|].
    intros k v Hin%list_elem_of_singleton. injection Hin as -> ->. reflexivity.
Defined.

End delete_from_labels.

(** ** [validate_target] and [validate_label]: [True], or a [ValueError] *)

Section validators.
Context `{Validators, PrometheusClient}.

Lemma valid_host_cases (host : string) :
  valid_host host = Ok true ∨ valid_host host = Raise ValueError.
Proof.
  unfold valid_host.
  destruct (valid_hostname host), (validators_domain host), (validators_ipv4 host); auto.
Qed.

Lemma valid_port_cases (port : string) :
  valid_port port = Ok true ∨ valid_port port = Raise ValueError.
Proof.
  unfold valid_port, int.
  destruct (str_isdigit port); simpl; [|by right].
  destruct (truthy port && forallb is_ascii_digit (chars port)); simpl; [|by right].
  case_bool_decide; simpl; auto.
Qed.

Lemma validate_target_cases (target : string) :
  validate_target target = Ok true ∨ validate_target target = Raise ValueError.
Proof.
  unfold validate_target.
  destruct (split_maxsplit1 ":" target) as [host rest].
  destruct (truthy (strip host)); simpl; [|by right].
  destruct (valid_host_cases host) as [-> | ->]; simpl; [|by right].
  apply valid_port_cases.
Qed.

Lemma validate_label_cases (label_name label_value : string) :
  validate_label label_name label_value
  = if METRIC_LABEL_NAME_RE_match label_name then Ok true else Raise ValueError.
Proof. unfold validate_label. by destruct (METRIC_LABEL_NAME_RE_match label_name). Qed.


Lemma validate_targets_cases (targets : list string) :
  validate_targets targets = Ok true ∨ validate_targets targets = Raise ValueError.
Proof.
  induction targets as [|t ts IH]; simpl; [by left|].
  destruct (validate_target_cases t) as [-> | ->]; simpl; auto.
Qed.



End validators.

(** ** [update_with_new_targets] *)

Section update_with_new_targets.
Context `{Validators, PrometheusClient, Hashlib}.

(** The loop stops with [False] at the first target that the record has
    and with [ValueError] at the first one that is malformed, whichever
    comes first; it never changes the record. *)
Lemma update_with_new_targets_loop (self : TargetConfig) (new_targets : list string) :
  ∃ r,
    for_in new_targets (fun target =>
        self ← get_state;
        if bool_decide (target ∈ targets (self : TargetConfig)) then ret (Some false)
        else lift (validate_target target);; ret None) self = (r, self)
    ∧ (r = Ok None
       ∧ Forall (fun t => (t ∉ targets self) ∧ validate_target t = Ok true) new_targets
       ∨ r = Ok (Some false) ∧ Exists (fun t => t ∈ targets self) new_targets
       ∨ r = Raise ValueError
         ∧ Exists (fun t => validate_target t = Raise ValueError) new_targets).
Proof.
  induction new_targets as [|t ts IH].
  - exists (Ok None). split; [done|]. left. split; [done|constructor].
  - rewrite for_in_cons. run_M.
    destruct (bool_decide_reflect (t ∈ targets self)) as [Hin|Hin].
    { exists (Ok (Some false)). split; [done|]. right. left. split; [done|by left]. }
    destruct (validate_target_cases t) as [Hv | Hv]; rewrite Hv.
    + destruct IH as (r & -> & Hr). exists r. split; [done|].
      destruct Hr as [[-> Hall]|[[-> Hex]|[-> Hex]]].
      * left. split; [done|]. by constructor.
      * right. left. split; [done|]. by right.
      * right. right. split; [done|]. by right.
    + exists (Raise ValueError). split; [done|]. right. right. split; [done|by left].
Qed.

(** The outcome of the method on every input. *)
Lemma update_with_new_targets_run (self : TargetConfig) (new_targets : list string) :
  let fresh :=
    new_targets ≠ [] ∧ NoDup new_targets
    ∧ Forall (fun t => t ∉ targets self) new_targets in
  (fresh ∧ Forall (fun t => validate_target t = Ok true) new_targets
   ∧ update_with_new_targets new_targets self
     = (Ok true, set_targets self (targets self ++ new_targets)))
  ∨ (¬ fresh ∧ update_with_new_targets new_targets self = (Ok false, self))
  ∨ (Exists (fun t => validate_target t = Raise ValueError) new_targets
     ∧ update_with_new_targets new_targets self = (Raise ValueError, self)).
Proof.
  intros fresh. subst fresh.
  destruct (update_with_new_targets new_targets self) as [r self'] eqn:Hrun.
  unfold update_with_new_targets in Hrun.
  destruct (nonempty new_targets) eqn:Hne; simpl in Hrun; cycle 1.
  { right. left. split; [|done]. intros [Hne' _]. apply nonempty_true in Hne'. congruence. }
  apply nonempty_true in Hne.
  case_bool_decide as Hnd; simpl in Hrun; cycle 1.
  { right. left. split; [|done]. intros (_ & Hnd' & _). by apply Hnd, sorted_set_NoDup. }
  apply sorted_set_NoDup in Hnd.
  destruct (update_with_new_targets_loop self new_targets) as (r' & Hloop & Hr').
  run_M. rewrite Hloop in Hrun.
  destruct Hr' as [[-> Hall]|[[-> Hex]|[-> Hex]]]; simplify_eq.
  - left. rewrite Forall_and in Hall. destruct Hall as [Hfresh Hvalid]. done.
  - right. left. split; [|done]. intros (_ & _ & Hfresh).
    apply Exists_exists in Hex as (t & Ht & Hin).
    rewrite Forall_forall in Hfresh. by apply (Hfresh t).
  - right. right. done.
Qed.

(** On targets that are all well formed the method is the addition of the
    specification: all of them are appended, or the record is left as it
    is. *)
Lemma update_with_new_targets_valid (self : TargetConfig) (new_targets : list string) :
  Forall (fun t => validate_target t = Ok true) new_targets →
  let fresh :=
    new_targets ≠ [] ∧ NoDup new_targets
    ∧ Forall (fun t => t ∉ targets self) new_targets in
  (fresh
   ∧ update_with_new_targets new_targets self
     = (Ok true, set_targets self (targets self ++ new_targets)))
  ∨ (¬ fresh ∧ update_with_new_targets new_targets self = (Ok false, self)).
Proof.
  intros Hvalid fresh. subst fresh.
  destruct (update_with_new_targets_run self new_targets)
    as [(Hfresh & _ & Hrun)|[[Hnot Hrun]|[Hex Hrun]]]; [by left|by right|].
  exfalso. apply Exists_exists in Hex as (t & Ht & Hraise).
  rewrite Forall_forall in Hvalid. specialize (Hvalid t Ht). congruence.
Qed.

End update_with_new_targets.

(** ** [delete_from_targets] *)

Section delete_from_targets.
Context `{Validators, PrometheusClient, Hashlib}.

(** What is left after a deletion: the targets that are not deleted, each
    once. *)
Lemma elements_difference (targets del_targets : list string) :
  NoDup (elements (set targets ∖ set del_targets))
  ∧ ∀ t, t ∈ elements (set targets ∖ set del_targets) ↔ t ∈ targets ∧ t ∉ del_targets.
Proof.
  split; [apply NoDup_elements|].
  intros t. unfold set.
  rewrite elem_of_elements, elem_of_difference, !elem_of_list_to_set. tauto.
Qed.

(** Among duplicate-free lists, a sublist has the length of the whole list
    exactly when it leaves nothing out. *)
Lemma same_length_no_rest (targets del_targets : list string) :
  NoDup targets → NoDup del_targets →
  Forall (fun t => t ∈ targets) del_targets →
  length del_targets = length targets ↔ ¬ ∃ t, t ∈ targets ∧ t ∉ del_targets.
Proof.
  intros Hnd Hnd' Hsub. rewrite Forall_forall in Hsub.
  assert (del_targets ⊆+ targets) as Hsubm by by apply NoDup_submseteq.
  split.
  - intros Hlen (t & Ht & Hnot).
    assert (del_targets ≡ₚ targets) as Hperm.
    { apply submseteq_length_Permutation; [done|]. by rewrite Hlen. }
    apply Hnot. by rewrite Hperm.
  - intros Hnone.
    assert (targets ⊆+ del_targets) as Hsubm'.
    { apply NoDup_submseteq; [done|]. intros t Ht.
      destruct (decide (t ∈ del_targets)); [done|]. exfalso. eauto. }
    apply submseteq_length in Hsubm, Hsubm'. lia.
Qed.

(** The outcome of the method on every input: the tests it makes. *)
Lemma delete_from_targets_run (self : TargetConfig) (del_targets : list string) :
  let accepted :=
    del_targets ≠ [] ∧ Forall (fun t => t ∈ targets self) del_targets
    ∧ NoDup del_targets ∧ length del_targets ≠ length (targets self) in
  (accepted
   ∧ delete_from_targets del_targets self
     = (Ok true, set_targets self (elements (set (targets self) ∖ set del_targets))))
  ∨ (¬ accepted ∧ delete_from_targets del_targets self = (Ok false, self)).
Proof.
  intros accepted. subst accepted.
  destruct (delete_from_targets del_targets self) as [r self'] eqn:Hrun.
  unfold delete_from_targets in Hrun. run_M.
  destruct (nonempty del_targets) eqn:Hne; simpl in Hrun; cycle 1.
  { right. split; [|done]. intros [Hne' _]. apply nonempty_true in Hne'. congruence. }
  apply nonempty_true in Hne.
  destruct (forallb _ del_targets) eqn:Hall; simpl in Hrun; cycle 1.
  { right. split; [|done]. intros (_ & Hall' & _).
    apply not_true_iff_false in Hall. apply Hall, Is_true_true, forallb_True.
    eapply Forall_impl; [done|]. intros t Ht. by apply bool_decide_pack. }
  apply Is_true_true, forallb_True in Hall.
  assert (Forall (fun t => t ∈ targets self) del_targets) as Hall'.
  { eapply Forall_impl; [done|]. intros t Ht. by apply bool_decide_unpack in Ht. }
  case_bool_decide as Hnd; simpl in Hrun; cycle 1.
  { right. split; [|done]. intros (_ & _ & Hnd' & _). by apply Hnd, sorted_set_NoDup. }
  apply sorted_set_NoDup in Hnd.
  case_bool_decide as Hlen; simpl in Hrun.
  { right. split; [|done]. intros (_ & _ & _ & Hlen'). done. }
  left. done.
Qed.

(** On a record without duplicate targets the method is the deletion of the
    specification: it succeeds exactly when the request is not empty, has no
    duplicates, names targets of the record only and leaves one of them. *)
Lemma delete_from_targets_NoDup (self : TargetConfig) (del_targets : list string) :
  NoDup (targets self) →
  let removable :=
    del_targets ≠ [] ∧ NoDup del_targets
    ∧ Forall (fun t => t ∈ targets self) del_targets
    ∧ ∃ t, t ∈ targets self ∧ t ∉ del_targets in
  (removable
   ∧ delete_from_targets del_targets self
     = (Ok true, set_targets self (elements (set (targets self) ∖ set del_targets))))
  ∨ (¬ removable ∧ delete_from_targets del_targets self = (Ok false, self)).
Proof.
  intros Hnd removable. subst removable.
  destruct (delete_from_targets_run self del_targets)
    as [[(Hne & Hall & Hnd' & Hlen) Hrun]|[Hnot Hrun]].
  - left. split; [|done]. repeat split; [done..|].
    destruct (decide (Exists (fun t => t ∉ del_targets) (targets self))) as [Hex|Hex].
    + apply Exists_exists in Hex. done.
    + exfalso. apply Hlen, same_length_no_rest; [done..|].
      intros (t & Ht & Hnot). apply Hex, Exists_exists. eauto.
  - right. split; [|done]. intros (Hne & Hnd' & Hall & Hex). apply Hnot.
    repeat split; [done..|]. intros Hlen.
    by apply same_length_no_rest in Hlen.
Qed.

End delete_from_targets.

(** ** The targets of a record and their duplicates *)

Section targets.
Context `{Validators, PrometheusClient, Hashlib}.

Lemma TargetConfig_init_targets (application environment : string)
    (targets0 : list string) (labels0 : gmap string string) (file_lock : Lock)
    (self : TargetConfig) :
  TargetConfig_init application environment targets0 labels0 file_lock = Ok self →
  targets self = targets0 ∧ validate_targets targets0 = Ok true.
Proof.
  unfold TargetConfig_init. intros Hinit.
  destruct (validate_targets_cases targets0) as [Hv|Hv]; rewrite Hv in Hinit;
    simpl in Hinit; [|done].
  destruct (validate_labels labels0); simpl in Hinit; [|done].
  injection Hinit as <-. split; [|done].
  unfold __attrs_post_init__. repeat case_bool_decide; reflexivity.
Qed.

Lemma replace_labels_for_put_targets (new_labels : items) (self self' : TargetConfig)
    (r : result unit) :
  replace_labels_for_put new_labels self = (r, self') →
  targets self' = targets self.
Proof.
  unfold replace_labels_for_put. run_M. intros Hrun.
  destruct (has_key "job" new_labels), (labels self !! "job"); simpl in Hrun;
    try (by simplify_eq);
    match type of Hrun with
    | context [has_key "env" ?d] =>
        destruct (has_key "env" d), (labels self !! "env"); simpl in Hrun;
          try (by simplify_eq)
    end;
    match type of Hrun with
    | context [validate_label_items ?d] =>
        destruct (validate_label_items d); by simplify_eq
    end.
Qed.

Lemma put_target_config_targets (application environment : string)
    (new_targets : list string) (request_labels : option items)
    (registry : gmap string TargetConfig) (file_lock : Lock) (self : TargetConfig) :
  new_targets ≠ [] →
  put_target_config application environment (Some new_targets) request_labels
    registry file_lock = Ok self →
  targets self = new_targets.
Proof.
  intros Hne. unfold put_target_config.
  replace (provided (Some new_targets)) with true by by destruct new_targets.
  destruct (provided request_labels) eqn:Hlabels; simpl.
  - intros Hinit. by apply TargetConfig_init_targets in Hinit as [? _].
  - destruct (find_or_create_target_config _ _ _ _) as [found|]; simpl; [|done].
    destruct (validate_each_target new_targets); simpl; [|done].
    by intros [= <-].
Qed.

End targets.

Section duplicates.
Context `{Validators, PrometheusClient, Hashlib}.

(** C2, as the code has it.  The constructor and the replacement of the
    targets by PUT store the list they are given, duplicates included;
    [update_with_new_targets] keeps a list without duplicates free of them,
    and what [delete_from_targets] leaves has none. *)
Theorem targets_NoDup (application environment : string) (given : list string)
    (labels0 : gmap string string) (request_labels : option items)
    (registry : gmap string TargetConfig) (file_lock : Lock)
    (self made replaced added reduced : TargetConfig) :
  (TargetConfig_init application environment given labels0 file_lock = Ok made →
   targets made = given)
  ∧ (given ≠ [] →
     put_target_config application environment (Some given) request_labels
       registry file_lock = Ok replaced →
     targets replaced = given)
  ∧ (NoDup (targets self) →
     update_with_new_targets given self = (Ok true, added) →
     NoDup (targets added))
  ∧ (delete_from_targets given self = (Ok true, reduced) →
     NoDup (targets reduced)).
Proof.
  split; [|split; [|split]].
  - intros Hinit. by apply TargetConfig_init_targets in Hinit as [? _].
  - apply put_target_config_targets.
  - intros Hnd Hrun.
    destruct (update_with_new_targets_run self given)
      as [((_ & Hnd' & Hfresh) & _ & Hrun')|[[_ Hrun']|[_ Hrun']]];
      rewrite Hrun' in Hrun; simplify_eq.
    simpl. apply NoDup_app. split; [done|]. split; [|done].
    rewrite Forall_forall in Hfresh. intros t Ht Ht'. by apply (Hfresh t).
  - intros Hrun.
    destruct (delete_from_targets_run self given) as [[_ Hrun']|[_ Hrun']];
      rewrite Hrun' in Hrun; simplify_eq.
    simpl. apply elements_difference.
Qed.

End duplicates.

(** The four parts at work: a record made of [h:1], a replacement by [h:1],
    the addition of [h:2] and the deletion of [h:1]. *)
Lemma targets_NoDup_witness :
  let self := mkTargetConfig "app" "env" ["h:1"; "h:2"]
                {[ "job" := "app"; "env" := "env" ]} None 0 in
  let made := mkTargetConfig "app" "env" ["h:3"]
                {[ "job" := "app"; "env" := "env" ]} None 0 in
  let replaced := set__filename made (Some "appenv") in
  targets made = ["h:3"] ∧ targets replaced = ["h:3"]
  ∧ NoDup (targets (set_targets self (targets self ++ ["h:3"])))
  ∧ NoDup (targets (set_targets self (elements (set (targets self) ∖ set ["h:1"])))).
Proof.
  intros self made replaced.
  assert (NoDup (targets self)) as Hnd.
  { apply NoDup_cons. split; [by intros ?%list_elem_of_singleton|apply NoDup_singleton]. }
  pose proof (@targets_NoDup hostnames_only spec_label_names plain_digest
    "app" "env" ["h:3"] ∅ None ∅ 0%nat self made replaced
    (set_targets self (targets self ++ ["h:3"])) made)
    as (Hmade & Hreplaced & Hadded & _).
  pose proof (@targets_NoDup hostnames_only spec_label_names plain_digest
    "app" "env" ["h:1"] ∅ None ∅ 0%nat self made made made
    (set_targets self (elements (set (targets self) ∖ set ["h:1"]))))
    as (_ & _ & _ & Hreduced).
  split; [apply Hmade; vm_compute; reflexivity|].
  split; [apply Hreplaced; [done|vm_compute; reflexivity]|].
  split; [apply Hadded; [exact Hnd|vm_compute; reflexivity]|].
  apply Hreduced. vm_compute. reflexivity.
Defined.

(** C2 fails on the code: a PUT of [["h:1", "h:1"]] for an unknown
    application is answered with both copies and leaves them in the
    registry. *)
Lemma put_stores_duplicates :
  ∃ st name self,
    @put hostnames_only spec_label_names plain_digest "app" "env"
         (Some ["h:1"; "h:1"]) None 0%nat empty_app
    = (Ok (TargetConfig_json self), st)
    ∧ target_configs st.1 !! name = Some self
    ∧ targets self = ["h:1"; "h:1"]
    ∧ ¬ NoDup (targets self).
Proof.
  eexists _, "appenv.json", (mkTargetConfig "app" "env" ["h:1"; "h:1"]
    {[ "job" := "app"; "env" := "env" ]} (Some "appenv") 0%nat).
  split; [vm_compute; reflexivity|].
  split; [vm_compute; reflexivity|].
  split; [reflexivity|].
  simpl. intros Hnd. apply NoDup_cons in Hnd as [Hin _].
  apply Hin. by left.
Qed.

(** C3 at an input on which the code departs from it.  The record holds
    [h:1]; the request names [h:1] and then the malformed [bad host].  The
    loop meets the known target first and the method returns [False]: the
    malformed target, which [validate_target] refuses with [ValueError], is
    never validated. *)
Theorem update_with_new_targets_known_before_malformed :
  ∃ self,
    @TargetConfig_init hostnames_only spec_label_names "app" "env" ["h:1"] ∅ 0%nat
    = Ok self
    ∧ @validate_target hostnames_only "bad host" = Raise ValueError
    ∧ @update_with_new_targets hostnames_only ["h:1"; "bad host"] self
      = (Ok false, self)
    ∧ @update_with_new_targets hostnames_only ["bad host"; "h:1"] self
      = (Raise ValueError, self).
Proof.
  eexists. split; [vm_compute; reflexivity|].
  split; [vm_compute; reflexivity|].
  split; vm_compute; reflexivity.
Qed.

(** C6 at an input on which the code departs from it.  The constructor
    accepts the targets [h:1, h:1]; deleting [h:1] passes the test on the
    lengths, one against two, and leaves the record without any target. *)
Theorem delete_from_targets_leaves_none :
  ∃ self,
    @TargetConfig_init hostnames_only spec_label_names "app" "env" ["h:1"; "h:1"] ∅ 0%nat
    = Ok self
    ∧ delete_from_targets ["h:1"] self = (Ok true, set_targets self []).
Proof.
  eexists. split; vm_compute; reflexivity.
Qed.

(** ** The schema of the files, and [write_to_file] *)

Lemma getitem_fmap (f : string → Json.value) (k : string) (l : items) :
  Json.getitem k (prod_map id f <$> l) = f <$> (list_to_map l : gmap string string) !! k.
Proof.
  induction l as [|[k' v] l IH]; simpl.
  - by rewrite lookup_empty.
  - rewrite lookup_insert. case_bool_decide; case_decide; by simplify_eq.
Qed.

Lemma getitem_labels (self : TargetConfig) (k : string) :
  Json.getitem k (prod_map id Json.Str <$> map_to_list (labels self))
  = Json.Str <$> labels self !! k.
Proof. by rewrite getitem_fmap, list_to_map_to_list. Qed.

Lemma two_labels (m : gmap string string) :
  is_Some (m !! "job") → is_Some (m !! "env") → 2 ≤ size m.
Proof.
  intros [j Hj] [e He].
  rewrite <- (insert_id m "job" j), <- (insert_delete_eq m) by done.
  rewrite map_size_insert_None by apply lookup_delete_eq.
  assert (delete "job" m !! "env" = Some e) as He' by by rewrite lookup_delete_ne.
  rewrite <- (insert_id (delete "job" m) "env" e), <- (insert_delete_eq (delete "job" m)) by done.
  rewrite map_size_insert_None by apply lookup_delete_eq. lia.
Qed.

(** The record has the form of a file exactly when it has a target and
    non-empty values for [job] and [env]. *)
Lemma valid_prometheus_json_iff (self : TargetConfig) :
  valid_prometheus_json self = true
  ↔ targets self ≠ []
    ∧ (∃ job, labels self !! "job" = Some job ∧ job ≠ EmptyString)
    ∧ (∃ env, labels self !! "env" = Some env ∧ env ≠ EmptyString).
Proof.
  unfold valid_prometheus_json, Json.is_valid, TargetConfig_json. simpl.
  rewrite !getitem_labels, !length_fmap, length_map_to_list.
  rewrite !andb_true_r.
  pose proof (two_labels (labels self)) as Hsize.
  destruct (targets self) as [|t ts], (labels self !! "job") as [[|c job]|],
    (labels self !! "env") as [[|c' env]|]; simpl;
    repeat case_bool_decide; simpl in *;
    try (exfalso; lia); try (exfalso; by eauto using is_Some_None);
    (split; [try done|]);
    try (intros (Hts & (job' & Hjob & Hne) & (env' & Henv & Hne'));
         by simplify_eq);
    try (intros _; split; [done|]; split; eexists; by split).
Qed.

Lemma valid_prometheus_json_no_targets (self : TargetConfig) :
  targets self = [] ∨ size (labels self) < 2 → valid_prometheus_json self = false.
Proof.
  intros Hbad. apply not_true_iff_false. intros Hvalid.
  apply valid_prometheus_json_iff in Hvalid as (Hts & [job [Hjob _]] & [env [Henv _]]).
  destruct Hbad as [Hnil|Hsize]; [done|].
  assert (2 ≤ size (labels self)) by (apply two_labels; by eexists). lia.
Qed.

Section write_to_file.
Context `{Hashlib}.

Lemma filename_run (self : TargetConfig) :
  ∃ name hash,
    filename self = (Ok name, set__filename self (Some hash)).
Proof.
  unfold filename. run_M. destruct self as [a e ts ls [fn|] lock]; simpl.
  - by eexists _, _.
  - by eexists _, _.
Qed.

(** C8. [write_to_file] raises [TypeError] when the record does not fit the
    schema of the files, as when it has no target or fewer than two labels,
    and, that test passed, [FileNotFoundError] when the directory does not
    exist.  Either error leaves the record and the file system as they
    were: nothing has been written. *)
Theorem write_to_file_errors (self : TargetConfig) (directory : string)
    (fs : filesystem) :
  (valid_prometheus_json self = false →
   write_to_file directory (self, fs) = (Raise TypeError, (self, fs)))
  ∧ (valid_prometheus_json self = true → isdir fs directory = false →
     write_to_file directory (self, fs) = (Raise FileNotFoundError, (self, fs)))
  ∧ (isdir fs directory = false →
     ∃ e, write_to_file directory (self, fs) = (Raise e, (self, fs)))
  ∧ (targets self = [] ∨ size (labels self) < 2 →
     valid_prometheus_json self = false).
Proof.
  assert (valid_prometheus_json self = false →
          write_to_file directory (self, fs) = (Raise TypeError, (self, fs))) as Htype.
  { intros Hvalid. unfold write_to_file. run_M. by rewrite Hvalid. }
  assert (valid_prometheus_json self = true → isdir fs directory = false →
          write_to_file directory (self, fs) = (Raise FileNotFoundError, (self, fs)))
    as Hdir.
  { intros Hvalid Hdir. unfold write_to_file. run_M. by rewrite Hvalid, Hdir. }
  split; [done|]. split; [done|]. split; [|apply valid_prometheus_json_no_targets].
  intros Hmissing. destruct (valid_prometheus_json self) eqn:Hvalid; eauto.
Qed.

(** When both tests pass the file is written: the content of the file of
    the record becomes its serialisation. *)
Lemma write_to_file_writes (self : TargetConfig) (directory : string)
    (fs : filesystem) :
  valid_prometheus_json self = true → isdir fs directory = true →
  ∃ name hash,
    filename self = (Ok name, set__filename self (Some hash))
    ∧ write_to_file directory (self, fs)
      = (Ok tt, (set__filename self (Some hash),
                 write_file (path_join directory name) (TargetConfig_json self) fs)).
Proof.
  intros Hvalid Hdir. destruct (filename_run self) as (name & hash & Hname).
  exists name, hash. split; [done|].
  unfold write_to_file. run_M. rewrite Hvalid, Hdir. simpl.
  by rewrite Hname.
Qed.

End write_to_file.

(** A record without targets and a record for a missing directory. *)
Lemma write_to_file_errors_witness :
  let no_targets := mkTargetConfig "app" "env" []
                      {[ "job" := "app"; "env" := "env" ]} None 0 in
  let self := mkTargetConfig "app" "env" ["h:1"]
                {[ "job" := "app"; "env" := "env" ]} None 0 in
  let fs := mkfilesystem {[ "/sd" ]} ∅ in
  @write_to_file plain_digest "/sd" (no_targets, fs) = (Raise TypeError, (no_targets, fs))
  ∧ @write_to_file plain_digest "/nowhere" (self, fs)
    = (Raise FileNotFoundError, (self, fs))
  ∧ (∃ e, @write_to_file plain_digest "/nowhere" (no_targets, fs)
          = (Raise e, (no_targets, fs)))
  ∧ valid_prometheus_json no_targets = false.
Proof.
  intros no_targets self fs.
  pose proof (@write_to_file_errors plain_digest no_targets "/sd" fs)
    as (Htype & _ & _ & Hschema).
  pose proof (@write_to_file_errors plain_digest self "/nowhere" fs)
    as (_ & Hdir & _ & _).
  pose proof (@write_to_file_errors plain_digest no_targets "/nowhere" fs)
    as (_ & _ & Hboth & _).
  split; [apply Htype; vm_compute; reflexivity|].
  split; [apply Hdir; vm_compute; reflexivity|].
  split; [apply Hboth; vm_compute; reflexivity|].
  apply Hschema. left. reflexivity.
Defined.

(** ** [update_with_new_labels] *)

Lemma blank_truthy (s : string) : truthy (strip s) = false ↔ blank s.
Proof. unfold blank. destruct (strip s); simpl; split; congruence. Qed.

(** [labels.update] of a dict is the union that prefers the new items. *)
Lemma dict_update_union (d : gmap string string) (new_labels : items) :
  NoDup new_labels.*1 →
  dict_update d new_labels = list_to_map new_labels ∪ d.
Proof.
  unfold dict_update. revert d.
  induction new_labels as [|[k v] l IH]; intros d Hnd; simpl.
  - by rewrite (left_id_L ∅ (∪)).
  - rewrite fmap_cons in Hnd. apply NoDup_cons in Hnd as [Hk Hnd].
    rewrite IH by done. apply map_eq. intros j.
    rewrite !lookup_union, !lookup_insert.
    case_decide; subst; [|done].
    apply (not_elem_of_list_to_map_1 (M:=gmap string)) in Hk. simpl in Hk.
    rewrite Hk. by destruct (d !! j).
Qed.

Lemma dict_update_lookup (d : gmap string string) (new_labels : items) (k : string) :
  is_Some (d !! k) → is_Some (dict_update d new_labels !! k).
Proof.
  unfold dict_update. revert d.
  induction new_labels as [|[k' v] l IH]; intros d Hk; simpl; [done|].
  apply IH. rewrite lookup_insert_is_Some. destruct (decide (k' = k)); auto.
Qed.

Section update_with_new_labels.
Context `{Validators, PrometheusClient, Hashlib}.

(** The loop stops at the first item that is no true change, with [False],
    or that is a true change of a label whose name is malformed, with
    [ValueError]; it never changes the record. *)
Lemma update_with_new_labels_loop (self : TargetConfig) (new_labels : items) :
  let fine kv := true_change self kv ∧ well_formed_update self kv in
  ∃ r,
    for_in new_labels (fun '(name, value) =>
        self ← get_state;
        match labels (self : TargetConfig) !! name with
        | None => ret None
        | Some current =>
            if negb (truthy (strip value)) then ret (Some false)
            else if bool_decide (current = value) then ret (Some false)
            else lift (validate_label name value);; ret None
        end) self = (r, self)
    ∧ (r = Ok None ∧ Forall fine new_labels
       ∨ r = Ok (Some false)
         ∧ (∃ pre kv post, new_labels = pre ++ kv :: post
              ∧ Forall fine pre ∧ ¬ true_change self kv)
       ∨ r = Raise ValueError
         ∧ (∃ pre kv post, new_labels = pre ++ kv :: post
              ∧ Forall fine pre ∧ true_change self kv
              ∧ ¬ well_formed_update self kv)).
Proof.
  intros fine. induction new_labels as [|[k v] l IH].
  - exists (Ok None). split; [done|]. left. split; [done|constructor].
  - assert (∀ r, fine (k, v) →
        (r = Ok None ∧ Forall fine l
         ∨ r = Ok (Some false)
           ∧ (∃ pre kv post, l = pre ++ kv :: post
                ∧ Forall fine pre ∧ ¬ true_change self kv)
         ∨ r = Raise ValueError
           ∧ (∃ pre kv post, l = pre ++ kv :: post
                ∧ Forall fine pre ∧ true_change self kv
                ∧ ¬ well_formed_update self kv)) →
        (r = Ok None ∧ Forall fine ((k, v) :: l)
         ∨ r = Ok (Some false)
           ∧ (∃ pre kv post, (k, v) :: l = pre ++ kv :: post
                ∧ Forall fine pre ∧ ¬ true_change self kv)
         ∨ r = Raise ValueError
           ∧ (∃ pre kv post, (k, v) :: l = pre ++ kv :: post
                ∧ Forall fine pre ∧ true_change self kv
                ∧ ¬ well_formed_update self kv))) as Hnext.
    { intros r Hfine [[-> Hall]|[[-> Hex]|[-> Hex]]].
      - left. split; [done|]. by constructor.
      - right. left. split; [done|].
        destruct Hex as (pre & kv & post & -> & Hpre & Hkv).
        exists ((k, v) :: pre), kv, post. split; [done|]. split; [by constructor|done].
      - right. right. split; [done|].
        destruct Hex as (pre & kv & post & -> & Hpre & Hkv).
        exists ((k, v) :: pre), kv, post. split; [done|]. split; [by constructor|done]. }
    rewrite for_in_cons. run_M.
    destruct (labels self !! k) as [cur|] eqn:Hk.
    + destruct (truthy (strip v)) eqn:Hblank; simpl.
      * destruct (bool_decide_reflect (cur = v)) as [Heq|Hneq].
        { exists (Ok (Some false)). split; [done|]. right. left. split; [done|].
          exists [], (k, v), l. split; [done|]. split; [constructor|].
          intros Hchange. by destruct (Hchange cur Hk). }
        assert (true_change self (k, v)) as Hchange.
        { intros cur' Hcur'. simpl in Hcur'. simplify_eq. split; [|done].
          intros Hb%blank_truthy. simpl in Hb. congruence. }
        rewrite validate_label_cases.
        destruct (METRIC_LABEL_NAME_RE_match k) eqn:Hname.
        -- destruct IH as (r & -> & Hr). exists r. split; [done|].
           apply Hnext; [|done]. split; [done|]. by intros ? ?.
        -- exists (Raise ValueError). split; [done|]. right. right. split; [done|].
           exists [], (k, v), l. split; [done|]. split; [constructor|].
           split; [done|]. intros Hwf. specialize (Hwf cur Hk). simpl in Hwf. congruence.
      * exists (Ok (Some false)). split; [done|]. right. left. split; [done|].
        exists [], (k, v), l. split; [done|]. split; [constructor|].
        intros Hchange. destruct (Hchange cur Hk) as [Hnb _].
        by apply Hnb, blank_truthy.
    + destruct IH as (r & -> & Hr). exists r. split; [done|].
      apply Hnext; [|done].
      split; intros cur Hcur; simpl in Hcur; congruence.
Qed.

(** The outcome of the method on every input. *)
Lemma update_with_new_labels_run (self : TargetConfig) (new_labels : items) :
  let fine kv := true_change self kv ∧ well_formed_update self kv in
  (new_labels ≠ [] ∧ Forall fine new_labels
   ∧ update_with_new_labels new_labels self
     = (Ok true, set_labels self (dict_update (labels self) new_labels)))
  ∨ ((new_labels = []
      ∨ ∃ pre kv post, new_labels = pre ++ kv :: post
          ∧ Forall fine pre ∧ ¬ true_change self kv)
     ∧ update_with_new_labels new_labels self = (Ok false, self))
  ∨ ((∃ pre kv post, new_labels = pre ++ kv :: post
        ∧ Forall fine pre ∧ true_change self kv ∧ ¬ well_formed_update self kv)
     ∧ update_with_new_labels new_labels self = (Raise ValueError, self)).
Proof.
  intros fine.
  destruct (update_with_new_labels new_labels self) as [r self'] eqn:Hrun.
  unfold update_with_new_labels in Hrun.
  destruct (nonempty new_labels) eqn:Hne; simpl in Hrun; cycle 1.
  { right. left. split; [|done]. left. by destruct new_labels. }
  apply nonempty_true in Hne.
  destruct (update_with_new_labels_loop self new_labels) as (r' & Hloop & Hr').
  run_M. rewrite Hloop in Hrun.
  destruct Hr' as [[-> Hall]|[[-> Hex]|[-> Hex]]]; simplify_eq.
  - left. done.
  - right. left. split; [by right|done].
  - right. right. done.
Qed.

End update_with_new_labels.

Section labels_update.
Context `{Validators, PrometheusClient, Hashlib}.


(** A request that is accepted. *)
Lemma update_with_new_labels_accepted (self : TargetConfig) (new_labels : items) :
  NoDup new_labels.*1 → new_labels ≠ [] →
  Forall (true_change self) new_labels →
  Forall (well_formed_update self) new_labels →
  update_with_new_labels new_labels self
  = (Ok true, set_labels self (list_to_map new_labels ∪ labels self)).
Proof.
  intros Hnd Hne Hchange Hwf.
  destruct (update_with_new_labels_run self new_labels)
    as [(_ & _ & Hrun)|[[Hbad Hrun]|[Hbad Hrun]]].
  - by rewrite <- dict_update_union.
  - exfalso. destruct Hbad as [->|(pre & kv & post & -> & _ & Hkv)]; [done|].
    apply Forall_app in Hchange as [_ Hchange].
    by apply Forall_cons in Hchange as [? _].
  - exfalso. destruct Hbad as (pre & kv & post & -> & _ & _ & Hkv).
    apply Forall_app in Hwf as [_ Hwf].
    by apply Forall_cons in Hwf as [? _].
Qed.


End labels_update.






(** ** The protected labels *)

Section protected.
Context `{Validators, PrometheusClient, Hashlib}.

Lemma not_in_dom_lookup (m : gmap string string) (k : string) :
  bool_decide (k ∉ dom m) = match m !! k with Some _ => false | None => true end.
Proof.
  destruct (m !! k) eqn:Hk.
  - apply bool_decide_eq_false. rewrite not_elem_of_dom. congruence.
  - apply bool_decide_eq_true. by rewrite not_elem_of_dom.
Qed.

(** What [__attrs_post_init__] makes of the labels. *)
Lemma __attrs_post_init___labels (self : TargetConfig) :
  let self' := __attrs_post_init__ self in
  labels self' !! "job" = Some (default (application self) (labels self !! "job"))
  ∧ labels self' !! "env" = Some (default (environment self) (labels self !! "env"))
  ∧ (∀ k, k ≠ "job" → k ≠ "env" → labels self' !! k = labels self !! k)
  ∧ targets self' = targets self
  ∧ application self' = application self ∧ environment self' = environment self
  ∧ _filename self' = _filename self ∧ _file_lock self' = _file_lock self.
Proof.
  destruct self as [a e ts ls fn lock]. unfold __attrs_post_init__. simpl.
  destruct (bool_decide_reflect (ls = ∅)) as [->|Hne]; simpl.
  - rewrite !not_in_dom_lookup. simpl. simplify_map_eq. simpl.
    repeat split. intros k ? ?. by simplify_map_eq.
  - rewrite not_in_dom_lookup. simpl.
    destruct (ls !! "job") as [job|] eqn:Hjob; simpl;
      rewrite not_in_dom_lookup; simpl; simplify_map_eq;
      destruct (ls !! "env") as [env|] eqn:Henv; simpl;
      repeat split; simplify_map_eq; try done;
      intros k ? ?; by simplify_map_eq.
Qed.

(** The labels of a record that the constructor has made. *)
Lemma TargetConfig_init_labels (application environment : string)
    (targets0 : list string) (labels0 : gmap string string) (file_lock : Lock)
    (self : TargetConfig) :
  TargetConfig_init application environment targets0 labels0 file_lock = Ok self →
  labels self !! "job" = Some (default application (labels0 !! "job"))
  ∧ labels self !! "env" = Some (default environment (labels0 !! "env"))
  ∧ (∀ k, k ≠ "job" → k ≠ "env" → labels self !! k = labels0 !! k).
Proof.
  unfold TargetConfig_init. intros Hinit.
  destruct (validate_targets targets0); simpl in Hinit; [|done].
  destruct (validate_labels labels0); simpl in Hinit; [|done].
  injection Hinit as <-.
  pose proof (__attrs_post_init___labels
    (mkTargetConfig application environment targets0 labels0 None file_lock))
    as (Hjob & Henv & Hother & _).
  done.
Qed.

Lemma TargetConfig_init_protected (application environment : string)
    (targets0 : list string) (labels0 : gmap string string) (file_lock : Lock)
    (self : TargetConfig) :
  TargetConfig_init application environment targets0 labels0 file_lock = Ok self →
  protected self.
Proof.
  intros (Hjob & Henv & _)%TargetConfig_init_labels. split; by eexists.
Qed.

End protected.

Section protected_mutations.
Context `{Validators, PrometheusClient, Hashlib}.

(** The second loop of [delete_from_labels] keeps the labels that the
    request does not name, also when it stops on a [KeyError]. *)
Lemma delete_loop_keeps (self : TargetConfig) (del_labels : items) (k : string) :
  k ∉ del_labels.*1 →
  labels (for_in del_labels
            (fun '(label, _) => del_label label;; ret (None : option bool)) self).2 !! k
  = labels self !! k.
Proof.
  revert self. induction del_labels as [|[k' v] d IH]; intros self Hk; [done|].
  rewrite fmap_cons in Hk. apply not_elem_of_cons in Hk as [Hne Hk].
  rewrite for_in_cons. unfold del_label in *. run_M.
  destruct (labels self !! k') as [cur|] eqn:Hk'; simpl; [|done].
  rewrite IH by done. simpl. by rewrite lookup_delete_ne.
Qed.

Lemma delete_from_labels_protected (self : TargetConfig) (del_labels : items) :
  protected self → protected (delete_from_labels del_labels self).2.
Proof.
  intros Hself. unfold delete_from_labels.
  destruct (nonempty del_labels); simpl; [|done].
  unfold has_key.
  destruct (bool_decide_reflect ("job" ∈ del_labels.*1)) as [Hjob|Hjob]; simpl; [done|].
  destruct (bool_decide_reflect ("env" ∈ del_labels.*1)) as [Henv|Henv]; simpl; [done|].
  unfold mbind at 1. unfold M_bind, bind. rewrite delete_from_labels_check.
  destruct (forallb _ del_labels); simpl; [|done].
  pose proof (delete_loop_keeps self del_labels "job" Hjob) as Hjob'.
  pose proof (delete_loop_keeps self del_labels "env" Henv) as Henv'.
  unfold mbind, M_bind, bind.
  destruct (for_in del_labels _ self) as [[r|e] self']; simpl in *;
    unfold protected; by rewrite Hjob', Henv'.
Qed.

Lemma replace_labels_for_put_protected (self : TargetConfig) (new_labels : items) :
  protected self → protected (replace_labels_for_put new_labels self).2.
Proof.
  intros [[job Hjob] [env Henv]]. unfold replace_labels_for_put, has_key. run_M.
  rewrite Hjob, Henv.
  assert (∀ l : items, ("job" ∈ l.*1) → ("env" ∈ l.*1) →
            protected (set_labels self (list_to_map l))) as Hprotected.
  { intros l Hj He. split; simpl; apply not_eq_None_Some;
      intros Hnone; by apply (not_elem_of_list_to_map (M:=gmap string)) in Hnone. }
  assert (protected self) as Hself by (split; by eexists).
  destruct (bool_decide_reflect ("job" ∈ new_labels.*1)) as [Hj|Hj]; simpl.
  - destruct (bool_decide_reflect ("env" ∈ new_labels.*1)) as [He|He]; simpl.
    + destruct (validate_label_items new_labels); simpl; [by apply Hprotected|done].
    + destruct (validate_label_items (new_labels ++ _)); simpl; [|done].
      apply Hprotected; rewrite fmap_app, elem_of_app; [by left|right; by left].
  - destruct (bool_decide_reflect ("env" ∈ (new_labels ++ [("job", job)]).*1))
      as [He|He]; simpl.
    + destruct (validate_label_items (new_labels ++ _)); simpl; [|done].
      apply Hprotected; [|done]. rewrite fmap_app, elem_of_app. right. by left.
    + destruct (validate_label_items ((new_labels ++ _) ++ _)); simpl; [|done].
      apply Hprotected; rewrite !fmap_app, !elem_of_app.
      * left. right. by left.
      * right. by left.
Qed.

(** No operation on a record removes [job] or [env]. *)
Lemma after_protected (m : mutation) (self : TargetConfig) :
  protected self → protected (after m self).
Proof.
  intros Hself. destruct m as [new|new|del|del|request|request]; simpl.
  - destruct (update_with_new_targets_run self new)
      as [(_ & _ & ->)|[[_ ->]|[_ ->]]]; done.
  - destruct (update_with_new_labels_run self new)
      as [(_ & _ & ->)|[[_ ->]|[_ ->]]]; [|done..].
    destruct Hself. split; simpl; by apply dict_update_lookup.
  - destruct (delete_from_targets_run self del) as [[_ ->]|[_ ->]]; done.
  - by apply delete_from_labels_protected.
  - by destruct (validate_each_target request).
  - by apply replace_labels_for_put_protected.
Qed.

Lemma filename_protected (self : TargetConfig) :
  protected self → protected (filename self).2.
Proof. destruct (filename_run self) as (name & hash & ->). done. Qed.

Lemma find_or_create_target_config_protected (application environment : string)
    (registry : gmap string TargetConfig) (file_lock : Lock) (self : TargetConfig) :
  find_or_create_target_config application environment registry file_lock = Ok self →
  protected self.
Proof.
  unfold find_or_create_target_config.
  destruct (TargetConfig_init application environment [] ∅ file_lock)
    as [looking_for|] eqn:Hinit; simpl; [|done].
  apply TargetConfig_init_protected in Hinit.
  destruct (filename_run looking_for) as (name & hash & Hname). rewrite Hname.
  destruct (registry !! name) as [found|].
  - unfold __deepcopy__. apply TargetConfig_init_protected.
  - by intros [= <-].
Qed.

(** The record that [put] writes has its protected labels. *)
Lemma put_target_config_protected (application environment : string)
    (request_targets : option (list string)) (request_labels : option items)
    (registry : gmap string TargetConfig) (file_lock : Lock) (self : TargetConfig) :
  put_target_config application environment request_targets request_labels
    registry file_lock = Ok self →
  protected self.
Proof.
  unfold put_target_config.
  destruct (provided request_targets && provided request_labels).
  { apply TargetConfig_init_protected. }
  destruct (find_or_create_target_config _ _ _ _) as [found|] eqn:Hfound;
    simpl; [|done].
  apply find_or_create_target_config_protected in Hfound.
  destruct (provided request_targets); simpl.
  - destruct (validate_each_target _); simpl; [|done].
    destruct (provided request_labels).
    + pose proof (replace_labels_for_put_protected
        (set_targets found (default [] request_targets))
        (default [] request_labels) Hfound) as Hput.
      destruct (replace_labels_for_put _ _) as [[r|e] replaced]; [|done].
      by intros [= <-].
    + by intros [= <-].
  - destruct (provided request_labels).
    + pose proof (replace_labels_for_put_protected found
        (default [] request_labels) Hfound) as Hput.
      destruct (replace_labels_for_put _ _) as [[r|e] replaced]; [|done].
      by intros [= <-].
    + by intros [= <-].
Qed.

(** [put] keeps a registry of records with protected labels such. *)
Lemma put_protected (application environment : string)
    (body_targets : option (list string)) (body_labels : option items)
    (file_lock : Lock) (st : rest_app * filesystem) :
  map_Forall (fun _ self => protected self) (target_configs st.1) →
  map_Forall (fun _ self => protected self)
    (target_configs (put application environment body_targets body_labels
                       file_lock st).2.1).
Proof.
  intros Hregistry. unfold put. run_M.
  destruct (targets_in_request body_targets) as [request_targets|]; simpl; [|done].
  destruct (labels_in_request body_labels) as [request_labels|]; simpl; [|done].
  destruct (put_target_config _ _ _ _ _ _) as [self|] eqn:Hself; simpl; [|done].
  apply put_target_config_protected in Hself.
  unfold write_to_file. run_M.
  destruct (valid_prometheus_json self); simpl; [|done].
  destruct (isdir st.2 (file_sd_directory st.1)); simpl; [|done].
  destruct (filename_run self) as (name & hash & Hname). rewrite Hname. simpl.
  by apply map_Forall_insert_2.
Qed.

End protected_mutations.

Section protected_labels.
Context `{Validators, PrometheusClient, Hashlib}.

(** C7. Every record that the constructor makes has the labels [job] and
    [env]: with the values that the caller gave, and otherwise with the
    application and the environment; the other labels are those of the
    caller.  No mutation of a record, whatever its outcome, removes either
    label, and [put], whatever the request and its outcome, keeps a registry
    whose records have both labels such. *)
Theorem protected_labels (application environment : string)
    (targets0 : list string) (labels0 : gmap string string) (file_lock : Lock)
    (made self : TargetConfig) (m : mutation)
    (body_targets : option (list string)) (body_labels : option items)
    (st : rest_app * filesystem) :
  (TargetConfig_init application environment targets0 labels0 file_lock = Ok made →
   labels made !! "job" = Some (default application (labels0 !! "job"))
   ∧ labels made !! "env" = Some (default environment (labels0 !! "env"))
   ∧ ∀ k, k ≠ "job" → k ≠ "env" → labels made !! k = labels0 !! k)
  ∧ (protected self → protected (after m self))
  ∧ (map_Forall (fun _ known => protected known) (target_configs st.1) →
     map_Forall (fun _ known => protected known)
       (target_configs (put application environment body_targets body_labels
                          file_lock st).2.1)).
Proof.
  split; [apply TargetConfig_init_labels|].
  split; [apply after_protected|apply put_protected].
Qed.

End protected_labels.

(** A record made with the label [job] only, the deletion of its label
    [team], and a PUT of labels without [job] and [env] for it. *)
Lemma protected_labels_witness :
  let made := mkTargetConfig "app" "env" ["h:1"]
                {[ "job" := "web"; "env" := "env"; "team" := "a" ]} None 0 in
  let st := (mkrest_app {[ "appenv.json" := made ]} "/sd",
             mkfilesystem {[ "/sd" ]} ∅) in
  (labels made !! "job" = Some "web" ∧ labels made !! "env" = Some "env")
  ∧ protected (@after hostnames_only spec_label_names
                 (Delete_from_labels [("team", "a")]) made)
  ∧ map_Forall (fun _ known => protected known)
      (target_configs (@put hostnames_only spec_label_names plain_digest
                         "app" "env" None (Some [("team", "b")]) 1%nat st).2.1).
Proof.
  intros made st.
  pose proof (@protected_labels hostnames_only spec_label_names plain_digest
    "app" "env" ["h:1"] {[ "job" := "web"; "team" := "a" ]} 0%nat made made
    (Delete_from_labels [("team", "a")]) None (Some [("team", "b")]) st)
    as (Hmade & Hafter & _).
  pose proof (@protected_labels hostnames_only spec_label_names plain_digest
    "app" "env" ["h:1"] ∅ 1%nat made made
    (Delete_from_labels [("team", "a")]) None (Some [("team", "b")]) st)
    as (_ & _ & Hput).
  assert (protected made) as Hprotected.
  { split; eexists; vm_compute; reflexivity. }
  split; [|split].
  - destruct Hmade as (Hjob & Henv & _); [vm_compute; reflexivity|].
    split; [exact Hjob|exact Henv].
  - apply Hafter. exact Hprotected.
  - apply Hput. simpl. apply map_Forall_singleton. exact Hprotected.
Defined.

(** ** Serialisation and back *)




Section round_trip.
Context `{Validators, PrometheusClient, Hashlib}.



(** The file that [write_to_file] has written is read back by
    [from_json_file] as the serialisation of the record. *)
Lemma from_json_file_written (self : TargetConfig) (directory : string)
    (fs : filesystem) (file_lock : Lock) :
  valid_prometheus_json self = true → isdir fs directory = true →
  ∃ name self' fs',
    (filename self).1 = Ok name
    ∧ write_to_file directory (self, fs) = (Ok tt, (self', fs'))
    ∧ from_json_file fs' (path_join directory name) file_lock
      = from_json (TargetConfig_json self) file_lock.
Proof.
  intros Hvalid Hdir.
  destruct (write_to_file_writes self directory fs Hvalid Hdir)
    as (name & hash & Hname & Hwrite).
  eexists name, _, _. rewrite Hname. split; [done|]. split; [exact Hwrite|].
  unfold from_json_file, write_file. simpl. by rewrite lookup_insert_eq.
Qed.

End round_trip.



(** ** [validate_target] against the targets of the specification *)

Lemma chars_str (l : list ascii) : chars (str l) = l.
Proof. apply String.list_ascii_of_string_of_list_ascii. Qed.

Lemma str_chars (s : string) : str (chars s) = s.
Proof. apply String.string_of_list_ascii_of_string. Qed.

Lemma truthy_chars (s : string) : truthy s = nonempty (chars s).
Proof. by destruct s. Qed.

Lemma len_chars (s : string) : len s = length (chars s).
Proof. unfold len, chars. induction s; simpl; congruence. Qed.

Lemma lstrip_nil (l : list ascii) : lstrip l = [] ↔ Forall (fun c => isspace c = true) l.
Proof.
  induction l as [|c l IH]; simpl.
  - split; [constructor|done].
  - rewrite Forall_cons. destruct (isspace c) eqn:Hc.
    + rewrite IH. tauto.
    + split; [done|]. intros [? _]. congruence.
Qed.

Lemma lstrip_blank (l : list ascii) :
  Forall (fun c => isspace c = true) (lstrip l) → lstrip l = [].
Proof.
  induction l as [|c l IH]; simpl; [done|].
  destruct (isspace c) eqn:Hc; [done|].
  intros [? _]%Forall_cons. congruence.
Qed.

(** Nothing is left of a string once stripped exactly when it is made of
    white space. *)
Lemma strip_blank (s : string) :
  truthy (strip s) = negb (forallb isspace (chars s)).
Proof.
  unfold strip, rstrip. rewrite truthy_chars, chars_str.
  destruct (forallb isspace (chars s)) eqn:Hall; simpl.
  - apply Is_true_true, forallb_True in Hall.
    assert (lstrip (chars s) = []) as ->.
    { apply lstrip_nil. eapply Forall_impl; [done|]. intros c. apply Is_true_true. }
    done.
  - destruct (reverse (lstrip (reverse (lstrip (chars s))))) as [|c l] eqn:Hstrip;
      [|done].
    exfalso. apply not_true_iff_false in Hall. apply Hall, Is_true_true, forallb_True.
    apply (f_equal reverse) in Hstrip. rewrite reverse_involutive in Hstrip.
    simpl in Hstrip. apply lstrip_nil in Hstrip.
    rewrite Forall_reverse in Hstrip. apply lstrip_blank, lstrip_nil in Hstrip.
    eapply Forall_impl; [done|]. intros c. apply Is_true_true.
Qed.

Lemma blank_iff (s : string) : blank s ↔ Forall (fun c => isspace c = true) (chars s).
Proof.
  rewrite <- blank_truthy, strip_blank, negb_false_iff.
  rewrite <- Is_true_true, forallb_True.
  split; intros Hall; (eapply Forall_impl; [exact Hall|]);
    intros c; apply Is_true_true.
Qed.










Section validate_target.
Context `{Validators, PrometheusClient}.



End validate_target.



(** Why the line feed is set apart: the [$] of the two patterns lets a host
    name end with one, which the host names of the specification, with or
    without a final dot, do not. *)
Lemma validate_target_final_line_feed :
  @validate_target hostnames_only (String.append "host" (String LF EmptyString))
  = Ok true
  ∧ @spec_target hostnames_only dotted_hostname
      (String.append "host" (String LF EmptyString)) = false.
Proof. split; vm_compute; reflexivity. Qed.

(** * Further properties of the code *)

(** ** [__eq__] and [__ne__] *)

Lemma sorted_Permutation (l1 l2 : list string) : sorted l1 = sorted l2 ↔ l1 ≡ₚ l2.
Proof.
  unfold sorted. split.
  - intros Heq. rewrite <- (merge_sort_Permutation String.le l1), Heq.
    apply merge_sort_Permutation.
  - intros Hperm. apply (StronglySorted_unique String.le).
    + apply StronglySorted_merge_sort; apply _.
    + apply StronglySorted_merge_sort; apply _.
    + by rewrite !merge_sort_Permutation.
Qed.

(** Two records are equal for [__eq__] exactly when they have the same
    application, environment and labels and the same targets up to their
    order, each with its number of occurrences; the lock and the cached file
    name do not count.  [__ne__] is the negation. *)
Theorem TargetConfig_eq_iff (self other : TargetConfig) :
  (TargetConfig_eq self other = true
   ↔ application self = application other
     ∧ environment self = environment other
     ∧ targets self ≡ₚ targets other
     ∧ labels self = labels other)
  ∧ TargetConfig_ne self other = negb (TargetConfig_eq self other).
Proof.
  split; [|reflexivity]. unfold TargetConfig_eq.
  rewrite !andb_true_iff, !bool_decide_eq_true, sorted_Permutation. tauto.
Qed.

(** ** The files of the records *)

Section files_properties.
Context `{Validators, PrometheusClient, Hashlib}.

(** The name of the file of a record: the cached name when there is one. *)
Lemma filename_name (self : TargetConfig) :
  filename self
  = (Ok (default (md5_hexdigest (application self +:+ environment self))
                 (_filename self) +:+ ".json"),
     set__filename self
       (Some (default (md5_hexdigest (application self +:+ environment self))
                      (_filename self)))).
Proof.
  unfold filename. run_M. destruct self as [a e ts ls [fn|] lock]; done.
Qed.

(** What [write_to_file] has written, [read_from_file] reads: the
    serialisation of the record, whatever else the directory holds; reading
    changes nothing. *)
Theorem read_from_file_written (self self' : TargetConfig) (directory : string)
    (fs fs' : filesystem) :
  write_to_file directory (self, fs) = (Ok tt, (self', fs')) →
  read_from_file directory (self', fs') = (Ok (TargetConfig_json self), (self', fs')).
Proof.
  intros Hwrite. unfold write_to_file in Hwrite. unfold read_from_file. run_M.
  destruct (valid_prometheus_json self); simpl in Hwrite; [|done].
  destruct (isdir fs directory) eqn:Hdir; simpl in Hwrite; [|done].
  rewrite (filename_name self) in Hwrite. simpl in Hwrite.
  injection Hwrite as <- <-. unfold isdir, write_file in *. simpl.
  rewrite Hdir. simpl. rewrite lookup_insert_eq.
  by destruct self as [a e ts ls [fn|] lock].
Qed.

(** [delete_file] removes the file of the record and no other file; after
    it, reading the file or deleting it again raises [FileNotFoundError] and
    leaves the file system as it is. *)
Theorem delete_file_written (self self' : TargetConfig) (directory : string)
    (fs fs' : filesystem) :
  write_to_file directory (self, fs) = (Ok tt, (self', fs')) →
  ∃ path,
    delete_file directory (self', fs') = (Ok tt, (self', remove_file path fs'))
    ∧ files (remove_file path fs') = delete path (files fs)
    ∧ read_from_file directory (self', remove_file path fs')
      = (Raise FileNotFoundError, (self', remove_file path fs'))
    ∧ delete_file directory (self', remove_file path fs')
      = (Raise FileNotFoundError, (self', remove_file path fs')).
Proof.
  intros Hwrite. unfold write_to_file in Hwrite. unfold read_from_file, delete_file.
  run_M.
  destruct (valid_prometheus_json self); simpl in Hwrite; [|done].
  destruct (isdir fs directory) eqn:Hdir; simpl in Hwrite; [|done].
  rewrite (filename_name self) in Hwrite. simpl in Hwrite.
  injection Hwrite as <- <-. unfold isdir, isfile, write_file, remove_file in *.
  simpl. rewrite Hdir. simpl.
  set (name := default (md5_hexdigest (application self +:+ environment self))
                 (_filename self) +:+ ".json").
  exists (path_join directory name).
  rewrite lookup_insert_eq, (bool_decide_eq_true_2 (is_Some (Some _))) by eauto.
  simpl. rewrite lookup_delete_eq, delete_insert_eq.
  rewrite (bool_decide_eq_false_2 (is_Some None)) by (by intros [? ?]).
  simpl. by destruct self as [a e ts ls [fn|] lock].
Qed.

(** Without the directory, or without the file of the record in it,
    [read_from_file] and [delete_file] raise [FileNotFoundError] and change
    no file. *)
Theorem files_not_found (self : TargetConfig) (directory : string)
    (fs : filesystem) :
  (isdir fs directory = false ∨
   files fs !! path_join directory
     (default (md5_hexdigest (application self +:+ environment self))
              (_filename self) +:+ ".json") = None) →
  ∃ self' self'',
    read_from_file directory (self, fs) = (Raise FileNotFoundError, (self', fs))
    ∧ delete_file directory (self, fs) = (Raise FileNotFoundError, (self'', fs)).
Proof.
  intros Hmissing. unfold read_from_file, delete_file. run_M.
  destruct (isdir fs directory) eqn:Hdir; simpl; [|by eexists _, _].
  destruct Hmissing as [?|Hfile]; [done|].
  rewrite (filename_name self). simpl. unfold isfile. rewrite Hfile.
  rewrite (bool_decide_eq_false_2 (is_Some None)) by (by intros [? ?]).
  simpl. by eexists _, _.
Qed.

End files_properties.

(** The record of [app] in [env], written to an empty directory. *)
Lemma read_from_file_written_witness :
  let self := mkTargetConfig "app" "env" ["h:1"]
                {[ "job" := "app"; "env" := "env" ]} None 0 in
  let fs := mkfilesystem {[ "/sd" ]} ∅ in
  ∃ self' fs',
    @write_to_file plain_digest "/sd" (self, fs) = (Ok tt, (self', fs'))
    ∧ @read_from_file plain_digest "/sd" (self', fs')
      = (Ok (TargetConfig_json self), (self', fs')).
Proof.
  intros self fs. eexists _, _.
  assert (@write_to_file plain_digest "/sd" (self, fs)
          = (Ok tt, (set__filename self (Some "appenv"),
                     write_file "/sd/appenv.json" (TargetConfig_json self) fs)))
    as Hwrite by (vm_compute; reflexivity).
  split; [exact Hwrite|].
  exact (@read_from_file_written plain_digest _ _ _ _ _ Hwrite).
Defined.

Lemma delete_file_written_witness :
  let self := mkTargetConfig "app" "env" ["h:1"]
                {[ "job" := "app"; "env" := "env" ]} None 0 in
  let fs := mkfilesystem {[ "/sd" ]} ∅ in
  ∃ self' fs' path,
    @write_to_file plain_digest "/sd" (self, fs) = (Ok tt, (self', fs'))
    ∧ @delete_file plain_digest "/sd" (self', fs')
      = (Ok tt, (self', remove_file path fs'))
    ∧ files (remove_file path fs') = delete path (files fs).
Proof.
  intros self fs.
  assert (@write_to_file plain_digest "/sd" (self, fs)
          = (Ok tt, (set__filename self (Some "appenv"),
                     write_file "/sd/appenv.json" (TargetConfig_json self) fs)))
    as Hwrite by (vm_compute; reflexivity).
  destruct (@delete_file_written plain_digest _ _ _ _ _ Hwrite)
    as (path & Hdelete & Hfiles & _).
  eexists _, _, path. split; [exact Hwrite|]. split; [exact Hdelete|exact Hfiles].
Defined.

(** A record that was never written. *)
Lemma files_not_found_witness :
  let self := mkTargetConfig "app" "env" ["h:1"]
                {[ "job" := "app"; "env" := "env" ]} None 0 in
  let fs := mkfilesystem {[ "/sd" ]} ∅ in
  ∃ self' self'',
    @read_from_file plain_digest "/sd" (self, fs)
    = (Raise FileNotFoundError, (self', fs))
    ∧ @delete_file plain_digest "/sd" (self, fs)
      = (Raise FileNotFoundError, (self'', fs)).
Proof.
  intros self fs.
  apply (@files_not_found plain_digest self "/sd" fs).
  right. vm_compute. reflexivity.
Defined.

(** ** The schemas *)

(** [TARGETS_LIST_SCHEMA] accepts exactly the arrays that are not empty: its
    keyword [properties] is about objects and constrains no item, so that any
    JSON value, the empty string included, may be an item. *)
Theorem TARGETS_LIST_SCHEMA_valid (instance : Json.value) :
  Json.is_valid instance Schema.TARGETS_LIST_SCHEMA = true
  ↔ ∃ item others, instance = Json.Array (item :: others).
Proof.
  unfold Json.is_valid. simpl.
  destruct instance as [| | | |[|item others]|]; simpl;
    (split; [try done; eauto|try done; by intros (? & ? & ?)]).
Qed.

(** The documents that [TARGET_CONFIG_FILE_SCHEMA] accepts: the arrays of a
    single object with two items, [targets], an array that is not empty, and
    [labels], an object with at least two items among which [job] and [env]
    are strings that are not empty. *)
Theorem TARGET_CONFIG_FILE_SCHEMA_valid (instance : Json.value) :
  Json.is_valid instance Schema.TARGET_CONFIG_FILE_SCHEMA = true
  ↔ ∃ d target others ls job env,
      instance = Json.Array [Json.Object d]
      ∧ length d = 2
      ∧ Json.getitem "targets" d = Some (Json.Array (target :: others))
      ∧ Json.getitem "labels" d = Some (Json.Object ls)
      ∧ 2 ≤ length ls
      ∧ Json.getitem "job" ls = Some (Json.Str job) ∧ job ≠ EmptyString
      ∧ Json.getitem "env" ls = Some (Json.Str env) ∧ env ≠ EmptyString.
Proof.
  split.
  - unfold Json.is_valid. simpl.
    destruct instance as [| | | |[|[| | | | |d] [|second rest]]|]; simpl;
      try done.
    destruct (Json.getitem "targets" d) as [[| | | |[|target others]|]|] eqn:Htargets;
      simpl; try (by rewrite ?andb_false_r);
      destruct (Json.getitem "labels" d) as [[| | | | |ls]|] eqn:Hlabels;
      simpl; try (by rewrite ?andb_false_r).
    destruct (Json.getitem "job" ls) as [[| | |job| |]|] eqn:Hjob;
      simpl; try (by rewrite ?andb_false_r);
      destruct (Json.getitem "env" ls) as [[| | |env| |]|] eqn:Henv;
      simpl; try (by rewrite ?andb_false_r).
    rewrite !andb_true_r. intros Hvalid.
    repeat match goal with
           | Hb : _ && _ = true |- _ => apply andb_prop in Hb as [Hb ?]
           end.
    repeat match goal with
           | Hb : bool_decide _ = true |- _ => apply bool_decide_eq_true in Hb
           end.
    exists d, target, others, ls, job, env.
    repeat split; try done; try lia.
    + intros ->. simpl in *. lia.
    + intros ->. simpl in *. lia.
  - intros (d & target & others & ls & job & env & -> & Hlen & Htargets & Hlabels
            & Hsize & Hjob & Hjob' & Henv & Henv').
    unfold Json.is_valid. simpl. rewrite Htargets, Hlabels. simpl.
    rewrite Hjob, Henv. simpl. rewrite !andb_true_r.
    rewrite (bool_decide_eq_true_2 (2 ≤ length d)) by lia.
    rewrite (bool_decide_eq_true_2 (length d ≤ 2)) by lia.
    rewrite (bool_decide_eq_true_2 (2 ≤ length ls)) by lia.
    rewrite (bool_decide_eq_true_2 (1 ≤ len job))
      by (destruct job; [done|unfold len; simpl; lia]).
    rewrite (bool_decide_eq_true_2 (1 ≤ len env))
      by (destruct env; [done|unfold len; simpl; lia]).
    done.
Qed.

(** ** The constructor and the reading of a file *)

Section construction.
Context `{Validators, PrometheusClient, Hashlib}.



Lemma as_str_items_getitem (d : list (string * Json.value)) (l : items)
    (k s : string) :
  as_str_items d = Ok l → Json.getitem k d = Some (Json.Str s) →
  (list_to_map l : gmap string string) !! k = Some s.
Proof.
  revert l. induction d as [|[k' v] d IH]; intros l; simpl; [done|].
  destruct v as [| | |s'| |]; simpl; try done.
  destruct (as_str_items d) as [l'|] eqn:Hd; simpl; [|done].
  intros [= <-]. simpl. case_bool_decide as Hk.
  - intros [= ->]. subst. by rewrite lookup_insert_eq.
  - intros Hget. rewrite lookup_insert_ne by done. by apply IH.
Qed.

(** A record that is read from a file has for application and environment
    the values of its labels [job] and [env], whatever the name of the file;
    its targets have passed [validate_target]. *)
Theorem from_json_identity (target_config_list : Json.value) (file_lock : Lock)
    (self : TargetConfig) :
  from_json target_config_list file_lock = Ok self →
  labels self !! "job" = Some (application self)
  ∧ labels self !! "env" = Some (environment self)
  ∧ validate_targets (targets self) = Ok true
  ∧ _filename self = None ∧ _file_lock self = file_lock.
Proof.
  unfold from_json.
  destruct target_config_list as [| | |[|]|[|[| | | | |d] rest]|]; simpl; try done.
  unfold subscript.
  destruct (Json.getitem "labels" d) as [[| | | | |ls]|]; simpl; try done.
  destruct (Json.getitem "job" ls) as [[| | |job| |]|] eqn:Hjob; simpl; try done.
  destruct (Json.getitem "env" ls) as [[| | |env| |]|] eqn:Henv; simpl; try done.
  destruct (Json.getitem "targets" d) as [[| | | |ts|]|]; simpl; try done.
  destruct (as_str_list ts) as [targets0|]; simpl; [|done].
  destruct (as_str_items ls) as [labels0|] eqn:Hls; simpl; [|done].
  intros Hinit.
  pose proof (TargetConfig_init_labels _ _ _ _ _ _ Hinit) as (Hjob' & Henv' & _).
  pose proof (TargetConfig_init_targets _ _ _ _ _ _ Hinit) as [Hts Hvalid].
  rewrite (as_str_items_getitem _ _ _ _ Hls Hjob) in Hjob'.
  rewrite (as_str_items_getitem _ _ _ _ Hls Henv) in Henv'.
  assert (self = __attrs_post_init__
            (mkTargetConfig job env targets0 (list_to_map labels0) None file_lock))
    as Hself.
  { unfold TargetConfig_init in Hinit.
    destruct (validate_targets targets0); simpl in Hinit; [|done].
    destruct (validate_labels _); simpl in Hinit; [|done].
    by injection Hinit. }
  pose proof (__attrs_post_init___labels
    (mkTargetConfig job env targets0 (list_to_map labels0) None file_lock))
    as (_ & _ & _ & _ & Ha & He & Hfn & Hlock).
  rewrite <- Hself in Ha, He, Hfn, Hlock. simpl in *.
  rewrite Ha, He, Hts, Hfn, Hlock. done.
Qed.

(** [from_json_file] raises [FileNotFoundError] when there is no file,
    [IndexError] when the file holds an empty array, and [KeyError] when the
    object that comes first in the array lacks [labels], or its labels lack
    [job], or, [job] being a string, [env], or, both being strings, the
    object lacks [targets]. *)
Theorem from_json_file_errors (fs : filesystem) (path : string)
    (d : list (string * Json.value)) (rest : list Json.value) (file_lock : Lock) :
  (files fs !! path = None → from_json_file fs path file_lock = Raise FileNotFoundError)
  ∧ (files fs !! path = Some (Json.Array []) →
     from_json_file fs path file_lock = Raise IndexError)
  ∧ (files fs !! path = Some (Json.Array (Json.Object d :: rest)) →
     (Json.getitem "labels" d = None
      ∨ ∃ ls, Json.getitem "labels" d = Some (Json.Object ls)
          ∧ (Json.getitem "job" ls = None
             ∨ ∃ job, Json.getitem "job" ls = Some (Json.Str job)
                 ∧ (Json.getitem "env" ls = None
                    ∨ ∃ env, Json.getitem "env" ls = Some (Json.Str env)
                        ∧ Json.getitem "targets" d = None))) →
     from_json_file fs path file_lock = Raise KeyError).
Proof.
  unfold from_json_file, from_json, subscript.
  split; [by intros ->|]. split; [by intros ->|].
  intros -> Hcases. simpl.
  destruct Hcases as [->|(ls & -> & Hcases)]; simpl; [done|].
  destruct Hcases as [->|(job & -> & Hcases)]; simpl; [done|].
  destruct Hcases as [->|(env & -> & ->)]; done.
Qed.

End construction.

(** A file without the label [env]. *)
Lemma from_json_file_errors_witness :
  let fs := mkfilesystem {[ "/sd" ]}
              {[ "/sd/x.json" :=
                   Json.Array [Json.Object
                     [("targets", Json.Array [Json.Str "h:1"]);
                      ("labels", Json.Object [("job", Json.Str "app")])]] ]} in
  @from_json_file hostnames_only spec_label_names fs "/sd/y.json" 0%nat
  = Raise FileNotFoundError
  ∧ @from_json_file hostnames_only spec_label_names fs "/sd/x.json" 0%nat
    = Raise KeyError.
Proof.
  intros fs.
  pose proof (@from_json_file_errors hostnames_only spec_label_names fs "/sd/y.json"
    [] [] 0%nat) as (Hmissing & _ & _).
  pose proof (@from_json_file_errors hostnames_only spec_label_names fs "/sd/x.json"
    [("targets", Json.Array [Json.Str "h:1"]);
     ("labels", Json.Object [("job", Json.Str "app")])] [] 0%nat) as (_ & _ & Hkey).
  split; [apply Hmissing; vm_compute; reflexivity|].
  apply Hkey; [vm_compute; reflexivity|].
  right. exists [("job", Json.Str "app")]. split; [reflexivity|].
  right. exists "app". split; [reflexivity|]. left. reflexivity.
Defined.

(** Reading the serialisation of the record of [web] in [env]. *)
Lemma from_json_identity_witness :
  let self := mkTargetConfig "app" "env" ["h:1"]
                {[ "job" := "web"; "env" := "env" ]} None 0 in
  ∃ loaded,
    @from_json hostnames_only spec_label_names (TargetConfig_json self) 1%nat
    = Ok loaded
    ∧ labels loaded !! "job" = Some (application loaded)
    ∧ application loaded = "web".
Proof.
  intros self.
  assert (@from_json hostnames_only spec_label_names (TargetConfig_json self) 1%nat
          = Ok (mkTargetConfig "web" "env" ["h:1"]
                  {[ "job" := "web"; "env" := "env" ]} None 1%nat)) as Hload
    by (vm_compute; reflexivity).
  eexists. split; [exact Hload|].
  destruct (@from_json_identity hostnames_only spec_label_names _ _ _ Hload)
    as (Hjob & _).
  split; [exact Hjob|reflexivity].
Defined.

(** ** How the mutations of a record compose *)

Section mutations_compose.
Context `{Validators, PrometheusClient}.

Lemma set_targets_set_targets (self : TargetConfig) (l1 l2 : list string) :
  set_targets (set_targets self l1) l2 = set_targets self l2.
Proof. reflexivity. Qed.

Lemma update_with_new_targets_true (self self' : TargetConfig)
    (new_targets : list string) :
  update_with_new_targets new_targets self = (Ok true, self') →
  self' = set_targets self (targets self ++ new_targets)
  ∧ new_targets ≠ [] ∧ NoDup new_targets
  ∧ Forall (fun t => t ∉ targets self) new_targets
  ∧ Forall (fun t => validate_target t = Ok true) new_targets.
Proof.
  intros Hrun.
  destruct (update_with_new_targets_run self new_targets)
    as [((Hne & Hnd & Hnew) & Hvalid & Hrun')|[[_ Hrun']|[_ Hrun']]];
    rewrite Hrun in Hrun'; [|done..].
  by injection Hrun' as ->.
Qed.

Lemma delete_from_targets_true (self self' : TargetConfig)
    (del_targets : list string) :
  delete_from_targets del_targets self = (Ok true, self') →
  self' = set_targets self (elements (set (targets self) ∖ set del_targets))
  ∧ del_targets ≠ [] ∧ Forall (fun t => t ∈ targets self) del_targets
  ∧ NoDup del_targets ∧ length del_targets ≠ length (targets self).
Proof.
  intros Hrun.
  destruct (delete_from_targets_run self del_targets)
    as [[(Hne & Hin & Hnd & Hlen) Hrun']|[_ Hrun']];
    rewrite Hrun in Hrun'; [|done].
  by injection Hrun' as ->.
Qed.

(** [delete_from_targets] undoes [update_with_new_targets]: after targets
    have been added to a record that had some, deleting the same list is
    accepted and leaves the targets that the record had, each of them once,
    and nothing else of the record is changed.  When the record had no target
    the deletion is refused, as it would leave none. *)
Theorem update_with_new_targets_undone (self self' : TargetConfig)
    (new_targets : list string) :
  update_with_new_targets new_targets self = (Ok true, self') →
  (targets self = [] ∧ delete_from_targets new_targets self' = (Ok false, self'))
  ∨ (targets self ≠ []
     ∧ ∃ restored,
         delete_from_targets new_targets self' = (Ok true, set_targets self restored)
         ∧ NoDup restored
         ∧ (∀ t, t ∈ restored ↔ t ∈ targets self)
         ∧ (NoDup (targets self) → restored ≡ₚ targets self)).
Proof.
  intros (-> & Hne & Hnd & Hnew & _)%update_with_new_targets_true.
  rewrite Forall_forall in Hnew.
  destruct (delete_from_targets_run
              (set_targets self (targets self ++ new_targets)) new_targets)
    as [[(_ & _ & _ & Hlen) Hrun]|[Hnot Hrun]]; simpl in *.
  - right. rewrite length_app in Hlen.
    split; [intros Hnil; rewrite Hnil in Hlen; simpl in Hlen; lia|].
    eexists. split; [exact Hrun|].
    destruct (elements_difference (targets self ++ new_targets) new_targets)
      as [Hnd' Hin].
    assert (∀ t, t ∈ elements (set (targets self ++ new_targets) ∖ set new_targets)
                 ↔ t ∈ targets self) as Hsame.
    { intros t. rewrite Hin, elem_of_app. split; [tauto|].
      intros Ht. split; [by left|]. intros Ht'. by apply (Hnew t). }
    split; [done|]. split; [done|].
    intros Hnd''. by apply NoDup_Permutation.
  - left. split; [|done].
    destruct (targets self) as [|t ts] eqn:Hts; [done|].
    exfalso. apply Hnot. split; [done|].
    split; [|split; [done|]].
    + apply Forall_forall. intros t' Ht'. apply elem_of_app. by right.
    + rewrite length_app. simpl. lia.
Qed.

(** [update_with_new_targets] undoes [delete_from_targets]: after an accepted
    deletion from a record whose targets pass [validate_target], adding the
    same list is accepted and the record has the targets that it had, each of
    them once. *)
Theorem delete_from_targets_undone (self self' : TargetConfig)
    (del_targets : list string) :
  Forall (fun t => validate_target t = Ok true) (targets self) →
  delete_from_targets del_targets self = (Ok true, self') →
  ∃ restored,
    update_with_new_targets del_targets self' = (Ok true, set_targets self restored)
    ∧ NoDup restored
    ∧ (∀ t, t ∈ restored ↔ t ∈ targets self)
    ∧ (NoDup (targets self) → restored ≡ₚ targets self).
Proof.
  intros Hvalid (-> & Hne & Hin & Hnd & _)%delete_from_targets_true.
  rewrite Forall_forall in Hin, Hvalid.
  destruct (elements_difference (targets self) del_targets) as [Hnd' Hleft].
  assert (Forall (fun t => validate_target t = Ok true) del_targets) as Hvalid'.
  { apply Forall_forall. intros t Ht. by apply Hvalid, Hin. }
  destruct (update_with_new_targets_valid
              (set_targets self (elements (set (targets self) ∖ set del_targets)))
              del_targets Hvalid') as [[_ Hrun]|[Hnot _]]; simpl in *.
  - eexists. split; [exact Hrun|].
    assert (NoDup (elements (set (targets self) ∖ set del_targets) ++ del_targets))
      as Hnd''.
    { apply NoDup_app. split; [done|]. split; [|done].
      intros t Ht%Hleft. tauto. }
    assert (∀ t, t ∈ elements (set (targets self) ∖ set del_targets) ++ del_targets
                 ↔ t ∈ targets self) as Hsame.
    { intros t. rewrite elem_of_app, Hleft. split.
      - intros [[? _]|?]; [done|by apply Hin].
      - intros Ht. destruct (decide (t ∈ del_targets)); [by right|by left]. }
    split; [done|]. split; [done|].
    intros ?. by apply NoDup_Permutation.
  - exfalso. apply Hnot. split; [done|]. split; [done|].
    apply Forall_forall. intros t Ht Ht'%Hleft. tauto.
Qed.

(** A mutation of the targets that has been accepted is refused when it is
    asked again, and then changes nothing: the targets that were added are
    known, the targets that were deleted are unknown. *)
Theorem targets_mutation_twice (self self' : TargetConfig) (request : list string) :
  (update_with_new_targets request self = (Ok true, self') →
   update_with_new_targets request self' = (Ok false, self'))
  ∧ (delete_from_targets request self = (Ok true, self') →
     delete_from_targets request self' = (Ok false, self')).
Proof.
  split.
  - intros (-> & Hne & Hnd & Hnew & Hvalid)%update_with_new_targets_true.
    destruct (update_with_new_targets_valid
                (set_targets self (targets self ++ request)) request Hvalid)
      as [[(_ & _ & Hfresh) _]|[_ Hrun]]; [|done].
    exfalso. simpl in Hfresh. destruct request as [|t ts]; [done|].
    apply Forall_cons in Hfresh as [Hfresh _]. apply Hfresh.
    apply elem_of_app. right. by left.
  - intros (-> & Hne & Hin & Hnd & _)%delete_from_targets_true.
    destruct (delete_from_targets_run
                (set_targets self (elements (set (targets self) ∖ set request)))
                request) as [[(_ & Hin' & _) _]|[_ Hrun]]; [|done].
    exfalso. simpl in Hin'. destruct request as [|t ts]; [done|].
    apply Forall_cons in Hin' as [Hin' _].
    apply elements_difference in Hin' as [_ Hin']. apply Hin'. by left.
Qed.

Lemma delete_from_labels_run (self : TargetConfig) (del_labels : items) :
  NoDup del_labels.*1 →
  let confirmed :=
    del_labels ≠ [] ∧ ("job" ∉ del_labels.*1) ∧ ("env" ∉ del_labels.*1)
    ∧ ∀ k v, (k, v) ∈ del_labels → labels self !! k = Some v in
  (confirmed
   ∧ delete_from_labels del_labels self
     = (Ok true, set_labels self (labels self ∖ list_to_map del_labels)))
  ∨ (¬ confirmed ∧ delete_from_labels del_labels self = (Ok false, self)).
Proof.
  intros Hnd confirmed. subst confirmed.
  destruct (delete_from_labels del_labels self) as [r self'] eqn:Hrun.
  unfold delete_from_labels, has_key in Hrun.
  destruct (nonempty del_labels) eqn:Hne; simpl in Hrun; cycle 1.
  { right. split; [|done]. intros [Hne' _]. apply nonempty_true in Hne'. congruence. }
  apply nonempty_true in Hne.
  destruct (bool_decide_reflect ("job" ∈ del_labels.*1)) as [Hjob|Hjob]; simpl in Hrun.
  { right. split; [|done]. intros (_ & Hn & _). by apply Hn. }
  destruct (bool_decide_reflect ("env" ∈ del_labels.*1)) as [Henv|Henv]; simpl in Hrun.
  { right. split; [|done]. intros (_ & _ & Hn & _). by apply Hn. }
  unfold mbind at 1 in Hrun. unfold M_bind, bind in Hrun.
  rewrite delete_from_labels_check in Hrun.
  destruct (forallb _ del_labels) eqn:Hall.
  - apply Is_true_true, forallb_True in Hall. rewrite Forall_forall in Hall.
    assert (∀ k v, (k, v) ∈ del_labels → labels self !! k = Some v) as Hall'.
    { intros k v Hin. specialize (Hall (k, v) Hin). by apply bool_decide_unpack in Hall. }
    left. split; [done|].
    unfold mbind, M_bind, bind in Hrun.
    rewrite delete_from_labels_delete in Hrun; [done|done|].
    intros k [[k' v] [-> Hin]]%list_elem_of_fmap. simpl.
    rewrite (Hall' _ _ Hin). eauto.
  - right. split; [|done]. intros (_ & _ & _ & Hall').
    apply not_true_iff_false in Hall. apply Hall, Is_true_true, forallb_True.
    rewrite Forall_forall. intros [k v] Hin. apply bool_decide_pack. by apply Hall'.
Qed.

(** [delete_from_labels] undoes an [update_with_new_labels] that only adds
    labels: when no label of the request is known to a record that has [job]
    and [env], the update is accepted whatever the names and the values, and
    the deletion of the same dict gives the record back. *)
Theorem update_with_new_labels_undone (self : TargetConfig) (new_labels : items) :
  NoDup new_labels.*1 → new_labels ≠ [] → protected self →
  (∀ k, k ∈ new_labels.*1 → labels self !! k = None) →
  ∃ self',
    update_with_new_labels new_labels self = (Ok true, self')
    ∧ labels self' = list_to_map new_labels ∪ labels self
    ∧ delete_from_labels new_labels self' = (Ok true, self).
Proof.
  intros Hnd Hne [Hjob Henv] Hnew.
  assert (∀ kv, kv ∈ new_labels → labels self !! kv.1 = None) as Hnew'.
  { intros [k v] Hin. apply Hnew, list_elem_of_fmap. by exists (k, v). }
  exists (set_labels self (list_to_map new_labels ∪ labels self)).
  split; [|split; [reflexivity|]].
  { apply update_with_new_labels_accepted; [done|done|..];
      apply Forall_forall; intros kv Hkv current Hcur;
      rewrite (Hnew' kv Hkv) in Hcur; done. }
  destruct (delete_from_labels_run
              (set_labels self (list_to_map new_labels ∪ labels self)) new_labels Hnd)
    as [[_ Hrun]|[Hnot _]]; simpl in *.
  - rewrite Hrun, set_labels_set_labels.
    assert ((list_to_map new_labels ∪ labels self) ∖ list_to_map new_labels
            = labels self) as ->; [|by rewrite set_labels_id].
    apply map_eq. intros k.
    rewrite lookup_difference, lookup_union.
    destruct (list_to_map new_labels !! k) as [v|] eqn:Hk; simpl.
    + apply elem_of_list_to_map_2 in Hk.
      symmetry. apply Hnew, list_elem_of_fmap. by exists (k, v).
    + by rewrite (left_id_L None _).
  - exfalso. apply Hnot. split; [done|].
    split; [intros Hin; apply Hnew in Hin; destruct Hjob; congruence|].
    split; [intros Hin; apply Hnew in Hin; destruct Henv; congruence|].
    intros k v Hin. apply lookup_union_Some_l.
    by apply elem_of_list_to_map_1.
Qed.

(** [update_with_new_labels] undoes [delete_from_labels]: after an accepted
    deletion the same dict is accepted as an update, without any check of its
    names and values, and gives the record back. *)
Theorem delete_from_labels_undone (self self' : TargetConfig) (del_labels : items) :
  NoDup del_labels.*1 →
  delete_from_labels del_labels self = (Ok true, self') →
  update_with_new_labels del_labels self' = (Ok true, self).
Proof.
  intros Hnd Hrun.
  destruct (delete_from_labels_run self del_labels Hnd)
    as [[(Hne & _ & _ & Hall) Hrun']|[_ Hrun']];
    rewrite Hrun in Hrun'; [|done].
  injection Hrun' as ->.
  assert (∀ kv, kv ∈ del_labels →
            (labels self ∖ list_to_map del_labels : gmap string string) !! kv.1 = None)
    as Hgone.
  { intros [k v] Hin. rewrite lookup_difference.
    by rewrite (elem_of_list_to_map_1 _ _ _ Hnd Hin). }
  rewrite update_with_new_labels_accepted; [|done|done|..]; cycle 1.
  { apply Forall_forall. intros kv Hkv current Hcur. simpl in Hcur.
    by rewrite (Hgone kv Hkv) in Hcur. }
  { apply Forall_forall. intros kv Hkv current Hcur. simpl in Hcur.
    by rewrite (Hgone kv Hkv) in Hcur. }
  rewrite set_labels_set_labels. simpl.
  assert (list_to_map del_labels ∪ labels self ∖ list_to_map del_labels
          = labels self) as ->; [|by rewrite set_labels_id].
  apply map_eq. intros k.
  rewrite lookup_union, lookup_difference.
  destruct (list_to_map del_labels !! k) as [v|] eqn:Hk; simpl.
  - apply elem_of_list_to_map_2 in Hk. rewrite (Hall _ _ Hk). done.
  - by rewrite (left_id_L None _).
Qed.

(** A mutation of the labels that has been accepted is refused when it is
    asked again, and then changes nothing: the labels that were written have
    the values of the request, the labels that were deleted are unknown. *)
Theorem labels_mutation_twice (self self' : TargetConfig) (request : items) :
  NoDup request.*1 →
  (update_with_new_labels request self = (Ok true, self') →
   update_with_new_labels request self' = (Ok false, self'))
  ∧ (delete_from_labels request self = (Ok true, self') →
     delete_from_labels request self' = (Ok false, self')).
Proof.
  intros Hnd. split.
  - intros Hrun.
    destruct (update_with_new_labels_run self request)
      as [(Hne & _ & Hrun')|[[_ Hrun']|[_ Hrun']]];
      rewrite Hrun in Hrun'; [|done..].
    injection Hrun' as ->. rewrite dict_update_union by done.
    destruct request as [|[k v] rest]; [done|].
    destruct (update_with_new_labels_run
                (set_labels self (list_to_map ((k, v) :: rest) ∪ labels self))
                ((k, v) :: rest))
      as [(_ & Hfine & _)|[[_ Hrun']|[(pre & kv & post & Heq & Hpre & Hchange & _) _]]];
      [exfalso|done|exfalso].
    + apply Forall_cons in Hfine as [[Hchange _] _].
      destruct (Hchange v) as [_ Hdiff]; [|done].
      simpl. apply lookup_union_Some_l, lookup_insert_eq.
    + destruct pre as [|kv' pre].
      * simpl in Heq. injection Heq as <- _.
        destruct (Hchange v) as [_ Hdiff]; [|done].
        simpl. apply lookup_union_Some_l, lookup_insert_eq.
      * simpl in Heq. injection Heq as <- _.
        apply Forall_cons in Hpre as [[Hchange' _] _].
        destruct (Hchange' v) as [_ Hdiff]; [|done].
        simpl. apply lookup_union_Some_l, lookup_insert_eq.
  - intros Hrun.
    destruct (delete_from_labels_run self request Hnd)
      as [[(Hne & _ & _ & Hall) Hrun']|[_ Hrun']];
      rewrite Hrun in Hrun'; [|done].
    injection Hrun' as ->.
    destruct (delete_from_labels_run
                (set_labels self (labels self ∖ list_to_map request)) request Hnd)
      as [[(_ & _ & _ & Hall') _]|[_ Hrun']]; [exfalso|done].
    destruct request as [|[k v] rest]; [done|].
    specialize (Hall' k v). simpl in Hall'.
    rewrite lookup_difference, lookup_insert_eq in Hall'.
    discriminate Hall'. by left.
Qed.

End mutations_compose.

(** Adding [b:2] to the record of [a:1], and deleting it again. *)
Lemma update_with_new_targets_undone_witness :
  let self := mkTargetConfig "app" "env" ["a:1"]
                {[ "job" := "app"; "env" := "env" ]} None 0 in
  ∃ restored,
    @delete_from_targets ["b:2"] (set_targets self ["a:1"; "b:2"])
    = (Ok true, set_targets self restored)
    ∧ restored ≡ₚ ["a:1"].
Proof.
  intros self.
  assert (@update_with_new_targets hostnames_only ["b:2"] self
          = (Ok true, set_targets self ["a:1"; "b:2"])) as Hrun
    by (vm_compute; reflexivity).
  pose proof (@update_with_new_targets_undone hostnames_only _ _ _ Hrun) as Hundone.
  destruct Hundone as [[Hnil _]|[_ (restored & Hdel & _ & _ & Hperm)]];
    [discriminate Hnil|].
  exists restored. split; [exact Hdel|].
  apply Hperm. apply NoDup_singleton.
Defined.

(** Deleting [b:2] from the record of [a:1] and [b:2], and adding it again. *)
Lemma delete_from_targets_undone_witness :
  let self := mkTargetConfig "app" "env" ["a:1"; "b:2"]
                {[ "job" := "app"; "env" := "env" ]} None 0 in
  ∃ self' restored,
    delete_from_targets ["b:2"] self = (Ok true, self')
    ∧ @update_with_new_targets hostnames_only ["b:2"] self'
      = (Ok true, set_targets self restored)
    ∧ restored ≡ₚ ["a:1"; "b:2"].
Proof.
  intros self.
  assert (delete_from_targets ["b:2"] self = (Ok true, set_targets self ["a:1"]))
    as Hrun by (vm_compute; reflexivity).
  assert (Forall (fun t => @validate_target hostnames_only t = Ok true) (targets self))
    as Hvalid by (repeat constructor).
  pose proof (@delete_from_targets_undone hostnames_only _ _ _ Hvalid Hrun)
    as Hundone.
  destruct Hundone as (restored & Hadd & _ & _ & Hperm).
  exists (set_targets self ["a:1"]), restored.
  split; [exact Hrun|]. split; [exact Hadd|].
  apply Hperm.
  apply NoDup_cons. split; [by intros ?%list_elem_of_singleton|apply NoDup_singleton].
Defined.

(** Adding [b:2] twice, and deleting it twice. *)
Lemma targets_mutation_twice_witness :
  let self := mkTargetConfig "app" "env" ["a:1"]
                {[ "job" := "app"; "env" := "env" ]} None 0 in
  let self' := set_targets self ["a:1"; "b:2"] in
  @update_with_new_targets hostnames_only ["b:2"] self' = (Ok false, self')
  ∧ delete_from_targets ["b:2"] self = (Ok false, self).
Proof.
  intros self self'. split.
  - apply (proj1 (@targets_mutation_twice hostnames_only self self' ["b:2"])).
    vm_compute; reflexivity.
  - change (delete_from_targets ["b:2"] (set_targets self' ["a:1"])
            = (Ok false, set_targets self' ["a:1"])).
    apply (proj2 (@targets_mutation_twice hostnames_only self' _ ["b:2"])).
    vm_compute; reflexivity.
Defined.

(** Adding the label [team], whose value is blank, and deleting it again. *)
Lemma update_with_new_labels_undone_witness :
  let self := mkTargetConfig "app" "env" ["a:1"]
                {[ "job" := "app"; "env" := "env" ]} None 0 in
  ∃ self',
    @update_with_new_labels spec_label_names [("team", " ")] self = (Ok true, self')
    ∧ labels self' !! "team" = Some " "
    ∧ delete_from_labels [("team", " ")] self' = (Ok true, self).
Proof.
  intros self.
  assert (protected self) as Hprotected by (split; vm_compute; eauto).
  assert (∀ k, k ∈ [("team", " ")].*1 → labels self !! k = None) as Hnew.
  { intros k Hk%list_elem_of_singleton. subst k. vm_compute; reflexivity. }
  assert ([("team", " ")] ≠ []) as Hne by discriminate.
  pose proof (@update_with_new_labels_undone spec_label_names self [("team", " ")]
                (NoDup_singleton "team") Hne Hprotected Hnew) as Hundone.
  destruct Hundone as (self' & Hadd & Hlabels & Hdel).
  exists self'. split; [exact Hadd|]. split; [|exact Hdel].
  rewrite Hlabels. vm_compute; reflexivity.
Defined.

(** Deleting the label [team], and adding it again. *)
Lemma delete_from_labels_undone_witness :
  let self := mkTargetConfig "app" "env" ["a:1"]
                {[ "job" := "app"; "env" := "env"; "team" := "a" ]} None 0 in
  ∃ self',
    delete_from_labels [("team", "a")] self = (Ok true, self')
    ∧ labels self' !! "team" = None
    ∧ @update_with_new_labels spec_label_names [("team", "a")] self' = (Ok true, self).
Proof.
  intros self.
  assert (delete_from_labels [("team", "a")] self
          = (Ok true, set_labels self {[ "job" := "app"; "env" := "env" ]})) as Hrun
    by (vm_compute; reflexivity).
  eexists. split; [exact Hrun|]. split; [vm_compute; reflexivity|].
  apply (@delete_from_labels_undone spec_label_names self _ [("team", "a")]
           (NoDup_singleton "team") Hrun).
Defined.

(** Writing the label [team] twice, and deleting it twice. *)
Lemma labels_mutation_twice_witness :
  let self := mkTargetConfig "app" "env" ["a:1"]
                {[ "job" := "app"; "env" := "env" ]} None 0 in
  let self' := set_labels self {[ "job" := "app"; "env" := "env"; "team" := "a" ]} in
  @update_with_new_labels spec_label_names [("team", "a")] self' = (Ok false, self')
  ∧ delete_from_labels [("team", "a")] self = (Ok false, self).
Proof.
  intros self self'. split.
  - apply (proj1 (@labels_mutation_twice spec_label_names self self' [("team", "a")]
                    (NoDup_singleton "team"))).
    vm_compute; reflexivity.
  - change (delete_from_labels [("team", "a")]
              (set_labels self' {[ "job" := "app"; "env" := "env" ]})
            = (Ok false, set_labels self' {[ "job" := "app"; "env" := "env" ]})).
    apply (proj2 (@labels_mutation_twice spec_label_names self' _ [("team", "a")]
                    (NoDup_singleton "team"))).
    vm_compute; reflexivity.
Defined.
